(** * reasoning-bank-slm: memory bank storage and Phase 1 statistics

    A shallow embedding of [src/memory.py] (the [MemoryItem] dataclass and the
    disk-backed [ReasoningBank]) and of the statistical part of
    [src/run_phase1.py] ([Phase1Experiment._compute_wilson_ci] and the summary
    built by [Phase1Experiment.save_results]), followed by the properties of
    the specification that concern them.

    Modelling conventions, used throughout:
    - Python [int] is [Z]; [bool] is [bool]; [str] is [string]. Python
      [float] is modelled twice. In the modules [Py] and [Phase1] it is a
      real number [R] (no rounding, no NaN, no overflow): this is the model
      of the statements whose content is the mathematics of the interval.
      Module [F64] gives [_compute_wilson_ci] over IEEE 754 binary64, as
      Python computes it, and is the model where rounding decides what the
      function does.
    - A Python exception is a value of [exn]; code that may raise returns a
      [result]. [x / y] and [math.sqrt] are the two partial primitives the
      statistics use, and are modelled as such.
    - [json.dump] / [json.load] belong to the Python library, not to the
      repository: a file is modelled by what [json.load] makes of its text,
      either a decoded value or a decoding failure.
    - The file system is a finite map from paths to files together with the
      log of the writes performed so far. A path is the string given to
      [open], taken as it is (two spellings of one file are two paths).
      Opening a present file, or any file for writing, succeeds, and a file
      that is present can be read. *)

From Stdlib Require Import Reals Lra Lia ZArith.
From Stdlib Require PrimFloat SpecFloat FloatOps.
From stdpp Require Import base option gmap strings list fin_maps sorting.

#[local] Set Warnings "-register-all".

(** ** Python runtime fragments *)

Module Py.

Inductive exn : Type :=
| FileNotFoundError
| JSONDecodeError
| TypeError
| ValueError
| ZeroDivisionError
| OverflowError.

Inductive result (A : Type) : Type :=
| Ok (a : A)
| Raise (e : exn).
Arguments Ok {A} a.
Arguments Raise {A} e.

#[global] Instance result_ret : MRet result := λ A a, Ok a.
#[global] Instance result_bind : MBind result := λ A B f m,
  match m with
  | Ok a => f a
  | Raise e => Raise e
  end.
#[global] Instance result_fmap : FMap result := λ A B f m,
  match m with
  | Ok a => Ok (f a)
  | Raise e => Raise e
  end.

Definition raises {A} (m : result A) : Prop := ∃ e, m = Raise e.

(** The values that [json.load] can produce and [json.dump] can write. *)
Inductive pyval : Type :=
| PNone
| PBool (b : bool)
| PInt (z : Z)
| PFloat (r : R)
| PStr (s : string)
| PList (l : list pyval)
| PDict (d : gmap string pyval).

(** [for x in v]: lists yield their elements, dicts their keys, strings
    their characters; anything else is not iterable. *)
Fixpoint chars (s : string) : list string :=
  match s with
  | EmptyString => []
  | String c s' => String c EmptyString :: chars s'
  end.

Definition iter (v : pyval) : result (list pyval) :=
  match v with
  | PList l => Ok l
  | PDict d => Ok (PStr <$> (map_to_list d).*1)
  | PStr s => Ok (PStr <$> chars s)
  | PNone | PBool _ | PInt _ | PFloat _ => Raise TypeError
  end.

(** [x / y] on floats. *)
Definition truediv (x y : R) : result R :=
  if Req_dec_T y 0 then Raise ZeroDivisionError else Ok (x / y)%R.

(** [math.sqrt(x)]: a negative argument is a "math domain error". *)
Definition math_sqrt (x : R) : result R :=
  if Rlt_dec x 0 then Raise ValueError else Ok (sqrt x).

(** [x > y] and [x < y] on numbers. *)
Definition gt (x y : R) : bool := if Rgt_dec x y then true else false.
Definition lt (x y : R) : bool := if Rlt_dec x y then true else false.

(** The builtins [max(a, b)] and [min(a, b)]: the first argument is kept
    unless the second is strictly greater (resp. smaller). *)
Definition max (a b : R) : R := if gt b a then b else a.
Definition min (a b : R) : R := if lt b a then b else a.

End Py.

Import Py.

(** ** src/memory.py *)

Module Memory.

(** [@dataclass class MemoryItem]. The annotations ([str] for the four texts
    and the time stamp, [bool] for [success], an optional list of floats for
    [embedding]) are not enforced at run time: every field holds whatever
    value it was given. *)
Record MemoryItem : Type := {
  title : pyval;
  description : pyval;
  content : pyval;
  source_problem_id : pyval;
  success : pyval;
  created_at : pyval;
  embedding : pyval
}.

(** [MemoryItem.to_dict]: [asdict(self)], one entry per field; [asdict]
    copies the field values, and a copy is equal to its original. *)
Definition to_dict (self : MemoryItem) : pyval :=
  PDict (<["title" := title self]>
        (<["description" := description self]>
        (<["content" := content self]>
        (<["source_problem_id" := source_problem_id self]>
        (<["success" := success self]>
        (<["created_at" := created_at self]>
        (<["embedding" := embedding self]> ∅))))))).

Definition field_names : gset string :=
  {[ "title"; "description"; "content"; "source_problem_id"; "success";
     "created_at"; "embedding" ]}.

(** Binding of one keyword argument of the generated [__init__]: a field
    without default must be supplied. *)
Definition required (d : gmap string pyval) (name : string) : result pyval :=
  match d !! name with
  | Some v => Ok v
  | None => Raise TypeError
  end.

(** [MemoryItem.from_dict]: the constructor is called with the entries of
    [data] as keyword arguments. [data] must be a mapping, every
    key must name a field, every field but [embedding] (default [None])
    must be present. The values are stored as they come. *)
Definition from_dict (data : pyval) : result MemoryItem :=
  match data with
  | PDict d =>
      if bool_decide (dom d ⊆ field_names) then
        t ← required d "title";
        de ← required d "description";
        c ← required d "content";
        sp ← required d "source_problem_id";
        su ← required d "success";
        cr ← required d "created_at";
        mret {| title := t; description := de; content := c;
                source_problem_id := sp; success := su; created_at := cr;
                embedding := default PNone (d !! "embedding") |}
      else Raise TypeError
  | _ => Raise TypeError
  end.

(** A file, as [json.load] sees it. *)
Inductive file : Type :=
| Json (data : pyval)
| Malformed.

Record filesystem : Type := {
  files : gmap string file;
  writes : list (string * file)
}.

(** [with open(path, 'w') as f: json.dump(data, f, indent=2)] *)
Definition write_json (path : string) (data : pyval) (fs : filesystem)
  : filesystem :=
  {| files := <[path := Json data]> (files fs);
     writes := writes fs ++ [(path, Json data)] |}.

(** [with open(path, 'r') as f: json.load(f)] *)
Definition read_json (path : string) (fs : filesystem) : result pyval :=
  match files fs !! path with
  | None => Raise FileNotFoundError
  | Some Malformed => Raise JSONDecodeError
  | Some (Json data) => Ok data
  end.

Record ReasoningBank : Type := {
  storage_path : string;
  memories : list MemoryItem
}.

Definition set_memories (self : ReasoningBank) (ms : list MemoryItem)
  : ReasoningBank :=
  {| storage_path := storage_path self; memories := ms |}.

(** [ReasoningBank.save] *)
Definition save (self : ReasoningBank) (fs : filesystem) : filesystem :=
  let data := PList (to_dict <$> memories self) in
  write_json (storage_path self) data fs.

(** [ReasoningBank.load]. Only [FileNotFoundError] is caught; on any other
    exception [self.memories] has not been assigned. *)
Definition load (self : ReasoningBank) (fs : filesystem)
  : result ReasoningBank :=
  match read_json (storage_path self) fs with
  | Raise FileNotFoundError => Ok (set_memories self [])
  | Raise e => Raise e
  | Ok data =>
      ms ← (elems ← iter data; mapM from_dict elems);
      mret (set_memories self ms)
  end.

(** [ReasoningBank.__init__] *)
Definition __init__ (storage_path : string) (fs : filesystem)
  : result ReasoningBank :=
  load {| storage_path := storage_path; memories := [] |} fs.

Definition default_storage_path : string := "memory_bank/reasoning_bank.json".

(** [ReasoningBank.add_memory] *)
Definition add_memory (memory : MemoryItem) (self : ReasoningBank)
    (fs : filesystem) : ReasoningBank * filesystem :=
  let self := set_memories self (memories self ++ [memory]) in
  (self, save self fs).

(** [ReasoningBank.add_memories] *)
Definition add_memories (new : list MemoryItem) (self : ReasoningBank)
    (fs : filesystem) : ReasoningBank * filesystem :=
  let self := set_memories self (memories self ++ new) in
  (self, save self fs).

(** [ReasoningBank.get_all_memories] *)
Definition get_all_memories (self : ReasoningBank) : list MemoryItem :=
  memories self.

(** [ReasoningBank.clear] *)
Definition clear (self : ReasoningBank) (fs : filesystem)
  : ReasoningBank * filesystem :=
  let self := set_memories self [] in
  (self, save self fs).

(** [ReasoningBank.__len__] *)
Definition __len__ (self : ReasoningBank) : nat := length (memories self).

(** The backing store of [self] holds the serialization of its current
    sequence, and the last write was the one that put it there. *)
Definition serialization (ms : list MemoryItem) : file :=
  Json (PList (to_dict <$> ms)).

Definition persisted (self : ReasoningBank) (fs : filesystem) : Prop :=
  files fs !! storage_path self = Some (serialization (memories self)).

Definition empty_fs : filesystem := {| files := ∅; writes := [] |}.

(** What one mutating call must leave behind: the bank still bound to its
    path, its store holding the serialization of the sequence it now has, one
    write added to the log (that of the full sequence), and every other file
    as it was. *)
Definition persisted_once (self : ReasoningBank) (fs : filesystem)
    (self' : ReasoningBank) (fs' : filesystem) : Prop :=
  storage_path self' = storage_path self
  ∧ persisted self' fs'
  ∧ writes fs' =
      writes fs ++ [(storage_path self, serialization (memories self'))]
  ∧ ∀ p, p ≠ storage_path self → files fs' !! p = files fs !! p.

End Memory.

Import Memory.

(** ** src/run_phase1.py: the statistics of [Phase1Experiment] *)

Module Phase1.

(** One entry of [self.results['baseline']] or [self.results['with_memory']];
    [evaluation_success] stands for [r['evaluation']['success']], the verdict
    of the external judge. *)
Record RunResult : Type := {
  problem_id : string;
  question : string;
  evaluation_success : bool
}.

Record Phase1Experiment : Type := {
  memory_bank : ReasoningBank;
  random_seed : Z;
  results_baseline : list RunResult;
  results_with_memory : list RunResult
}.

(** [sum(1 for r in rs if r['evaluation']['success'])] and [len(rs)] *)
Definition count_successes (rs : list RunResult) : Z :=
  Z.of_nat (length (filter (λ r, evaluation_success r = true) rs)).

Definition len (rs : list RunResult) : Z := Z.of_nat (length rs).

(** The default of the [confidence] parameter. *)
Definition default_confidence : R := 0.95.

(** [Phase1Experiment._compute_wilson_ci] *)
Definition _compute_wilson_ci (successes n : Z) (confidence : R)
  : result (R * R) :=
  if (n =? 0)%Z then Ok (0, 0)%R else
  p ← truediv (IZR successes) (IZR n);
  let z := 1.96%R in
  q ← truediv (z ^ 2) (IZR n);
  let denominator := (1 + q)%R in
  h ← truediv (z ^ 2) (IZR (2 * n));
  center ← truediv (p + h) denominator;
  v ← truediv (p * (1 - p)) (IZR n);
  w ← truediv (z ^ 2) (IZR (4 * n ^ 2));
  root ← math_sqrt (v + w);
  margin ← truediv (z * root) denominator;
  mret (max 0 (center - margin), min 1 (center + margin))%R.

(** The [summary] dictionary of [Phase1Experiment.save_results]. *)
Record Summary : Type := {
  baseline_accuracy : R;
  baseline_ci_lower : R;
  baseline_ci_upper : R;
  with_memory_accuracy : R;
  with_memory_ci_lower : R;
  with_memory_ci_upper : R;
  absolute_improvement : R;
  relative_improvement : R;
  confidence_intervals_overlap : bool;
  statistically_significant : bool;
  memory_bank_size : nat;
  problems_tested : nat;
  summary_random_seed : Z
}.

(** [Phase1Experiment.save_results], up to the construction of [summary]
    (the two result files it writes and the report it prints carry the same
    values and are left out). *)
Definition save_results (self : Phase1Experiment) : result Summary :=
  let baseline_successes := count_successes (results_baseline self) in
  let memory_successes := count_successes (results_with_memory self) in
  baseline_acc ←
    match results_baseline self with
    | [] => Ok 0%R
    | _ => truediv (IZR baseline_successes) (IZR (len (results_baseline self)))
    end;
  memory_acc ←
    match results_with_memory self with
    | [] => Ok 0%R
    | _ => truediv (IZR memory_successes) (IZR (len (results_with_memory self)))
    end;
  baseline_ci ← _compute_wilson_ci baseline_successes
                   (len (results_baseline self)) default_confidence;
  memory_ci ← _compute_wilson_ci memory_successes
                 (len (results_with_memory self)) default_confidence;
  relative ←
    (if gt baseline_acc 0 then truediv (memory_acc - baseline_acc) baseline_acc
     else Ok 0%R);
  mret {| baseline_accuracy := baseline_acc;
          baseline_ci_lower := baseline_ci.1;
          baseline_ci_upper := baseline_ci.2;
          with_memory_accuracy := memory_acc;
          with_memory_ci_lower := memory_ci.1;
          with_memory_ci_upper := memory_ci.2;
          absolute_improvement := (memory_acc - baseline_acc)%R;
          relative_improvement := relative;
          confidence_intervals_overlap := negb (gt memory_ci.1 baseline_ci.2);
          statistically_significant := gt memory_ci.1 baseline_ci.2;
          memory_bank_size := __len__ (memory_bank self);
          problems_tested := length (results_baseline self);
          summary_random_seed := random_seed self |}.

End Phase1.

Import Phase1.

(** ** The contract of the specification for the Wilson interval *)

Module Spec.

Definition clamp (x lo hi : R) : R := Rmax lo (Rmin hi x).

Definition center (z : R) (successes n : Z) : R :=
  let p := (IZR successes / IZR n)%R in
  ((p + z ^ 2 / (2 * IZR n)) / (1 + z ^ 2 / IZR n))%R.

Definition radicand (z : R) (successes n : Z) : R :=
  let p := (IZR successes / IZR n)%R in
  (p * (1 - p) / IZR n + z ^ 2 / (4 * IZR n ^ 2))%R.

Definition margin (z : R) (successes n : Z) : R :=
  (z * sqrt (radicand z successes n) / (1 + z ^ 2 / IZR n))%R.

(** [wilsonInterval(successes, n, confidenceZ)] as the specification words
    it: the interval for [z = confidenceZ], each bound clamped to [0, 1]. *)
Definition wilsonInterval (successes n : Z) (confidenceZ : R) : R * R :=
  if (n =? 0)%Z then (0, 0)%R
  else (clamp (center confidenceZ successes n - margin confidenceZ successes n) 0 1,
        clamp (center confidenceZ successes n + margin confidenceZ successes n) 0 1).

(** The accuracy of an arm: the share of successes, [0] for an empty arm. *)
Definition accuracy (rs : list RunResult) : R :=
  match rs with
  | [] => 0%R
  | _ => (IZR (count_successes rs) / IZR (len rs))%R
  end.

(** The summary of an experiment in closed form: what [compare] of the
    specification describes, with the run metadata of the code. *)
Definition summary (self : Phase1Experiment) : Summary :=
  let b := results_baseline self in
  let m := results_with_memory self in
  let bci := wilsonInterval (count_successes b) (len b) 1.96 in
  let mci := wilsonInterval (count_successes m) (len m) 1.96 in
  {| baseline_accuracy := accuracy b;
     baseline_ci_lower := bci.1;
     baseline_ci_upper := bci.2;
     with_memory_accuracy := accuracy m;
     with_memory_ci_lower := mci.1;
     with_memory_ci_upper := mci.2;
     absolute_improvement := (accuracy m - accuracy b)%R;
     relative_improvement :=
       if gt (accuracy b) 0 then ((accuracy m - accuracy b) / accuracy b)%R
       else 0%R;
     confidence_intervals_overlap := negb (gt mci.1 bci.2);
     statistically_significant := gt mci.1 bci.2;
     memory_bank_size := __len__ (memory_bank self);
     problems_tested := length b;
     summary_random_seed := random_seed self |}.

End Spec.

(** ** The retriever *)

Module Retrieval.

(** Python's [needle in hay] on strings: the literal substring test. *)
Fixpoint contains (needle hay : string) : bool :=
  String.prefix needle hay ||
  match hay with
  | EmptyString => false
  | String _ hay' => contains needle hay'
  end.

(** The text of a field that holds a string. *)
Definition text_of (v : pyval) : string :=
  match v with
  | PStr s => s
  | _ => EmptyString
  end.

Section Retriever.

(** The relevance measure (vector similarity or lexical overlap, resolved per
    candidate) is left open by the specification: it is a parameter, with the
    strict order on its scores. *)
Context {Score : Type}.
Variable score : string → MemoryItem → Score.
Variable score_ltb : Score → Score → bool.

(** Modelled from the spec: the leak test of [MemoryRetriever.retrieve]
    (module [retrieval.retriever], imported by [src/run_phase1.py] but not
    among the sources). A candidate leaks when its [content] or [description]
    contains the literal textual form of the expected value. *)
Definition leaks (expected_value : string) (m : MemoryItem) : bool :=
  contains expected_value (text_of (content m)) ||
  contains expected_value (text_of (description m)).

(** Modelled from the spec: the ranking of [MemoryRetriever.retrieve], by
    score descending, ties broken by the earlier [created_at]. *)
Definition ranks_before (a b : MemoryItem * Score) : bool :=
  score_ltb b.2 a.2 ||
  (negb (score_ltb a.2 b.2) &&
   String.leb (text_of (created_at a.1)) (text_of (created_at b.1))).

(** Modelled from the spec: [MemoryRetriever.retrieve(query, pool, top_k,
    expected_value)], whose source file is missing: filter out the leaking
    candidates, score the survivors, sort them, keep the first [top_k]; a
    non-positive [top_k] returns the empty list without scoring. *)
Definition retrieve (query : string) (pool : list MemoryItem) (top_k : Z)
    (expected_value : string) : list (MemoryItem * Score) :=
  if (top_k <=? 0)%Z then []
  else
    let candidates := filter (λ m, leaks expected_value m = false) pool in
    let scored := (λ m, (m, score query m)) <$> candidates in
    take (Z.to_nat top_k) (merge_sort (λ a b, ranks_before a b) scored).

End Retriever.

End Retrieval.

Import Retrieval.

(** ** Sample data *)

Module Samples.

Definition run (ok : bool) : RunResult :=
  {| problem_id := "gsm-1"; question := "2 + 2 = ?"; evaluation_success := ok |}.

(** An arm with the given numbers of successes and failures. *)
Definition arm (successes failures : nat) : list RunResult :=
  replicate successes (run true) ++ replicate failures (run false).

Definition experiment (baseline with_memory : list RunResult)
  : Phase1Experiment :=
  {| memory_bank := {| storage_path := default_storage_path; memories := [] |};
     random_seed := 42;
     results_baseline := baseline;
     results_with_memory := with_memory |}.

Definition item (title content : string) : MemoryItem :=
  {| title := PStr title;
     description := PStr "worked example";
     content := PStr content;
     source_problem_id := PStr "gsm-1";
     success := PBool true;
     created_at := PStr "2025-01-01T00:00:00";
     embedding := PNone |}.

Definition bank_path : string := "bank.json".

Definition fs_with (f : file) : filesystem :=
  {| files := {[ bank_path := f ]}; writes := [] |}.

(** A store whose second record lacks every field. *)
Definition truncated_store : file :=
  Json (PList [to_dict (item "t" "c"); PDict ∅]).

(** A relevance measure for the examples, and the pool of scenario 4 of the
    specification: three memories, one of which contains the answer. *)
Definition title_length (query : string) (m : MemoryItem) : Z :=
  Z.of_nat (String.length (text_of (title m))).

Definition pool3 : list MemoryItem :=
  [ item "a much longer title" "so the answer is 42";
    item "short" "add the two numbers";
    item "medium one" "carry the tens digit" ].

Definition fresh_bank : ReasoningBank :=
  {| storage_path := bank_path; memories := [] |}.

End Samples.

Import Samples.

(** ** src/memory.py: sequences of mutating calls *)

Module Session.

(** One mutating call on a bank. *)
Inductive call : Type :=
| AddMemory (memory : MemoryItem)
| AddMemories (batch : list MemoryItem)
| Clear.

Definition perform (st : ReasoningBank * filesystem) (c : call)
  : ReasoningBank * filesystem :=
  match c with
  | AddMemory memory => add_memory memory st.1 st.2
  | AddMemories batch => add_memories batch st.1 st.2
  | Clear => clear st.1 st.2
  end.

(** The calls of a session, performed in order. *)
Definition perform_all (calls : list call) (st : ReasoningBank * filesystem)
  : ReasoningBank * filesystem :=
  foldl perform st calls.

(** What the same calls do to a plain sequence. *)
Definition effect (ms : list MemoryItem) (c : call) : list MemoryItem :=
  match c with
  | AddMemory memory => ms ++ [memory]
  | AddMemories batch => ms ++ batch
  | Clear => []
  end.

End Session.

(** ** src/run_phase1.py: the two evaluation runs *)

Module Runs.

(** One entry of the problem files: [problem['id']], [problem['question']],
    [problem['expected_value']]. *)
Record Problem : Type := {
  id : string;
  question : string;
  expected_value : pyval
}.

(** [xs[:limit]]: the first [limit] elements, or all but the last [-limit]
    when [limit] is negative. *)
Definition slice_to {A} (limit : Z) (xs : list A) : list A :=
  if (0 <=? limit)%Z then take (Z.to_nat limit) xs
  else take (length xs - Z.to_nat (- limit)) xs.

(** The default of the [limit] parameter of both runs. *)
Definition default_limit : Z := 50.

Definition append_baseline (r : RunResult) (self : Phase1Experiment)
  : Phase1Experiment :=
  {| memory_bank := memory_bank self;
     random_seed := random_seed self;
     results_baseline := results_baseline self ++ [r];
     results_with_memory := results_with_memory self |}.

Definition append_with_memory (r : RunResult) (self : Phase1Experiment)
  : Phase1Experiment :=
  {| memory_bank := memory_bank self;
     random_seed := random_seed self;
     results_baseline := results_baseline self;
     results_with_memory := results_with_memory self ++ [r] |}.

(** A run has appended one result per problem to [old], in order, each
    carrying the identifier and the question of its problem. *)
Definition appended (problems : list Problem) (old now : list RunResult)
  : Prop :=
  ∃ new, now = old ++ new
         ∧ Forall2 (λ p r, Phase1.problem_id r = id p
                           ∧ Phase1.question r = question p) problems new.

Section Collaborators.

(** The language model client, the judge and the retriever are outside the
    repository's sources. Each call is a transition of an environment [Env]
    that stands for whatever state they keep, so that two calls with the same
    arguments need not answer the same; a call that fails is not modelled. *)
Context {Env Solution Evaluation Retrieved : Type}.

(** [self.llm.solve_math_problem(question, retrieved_memories=...)] and
    [solution['answer']] *)
Variable solve_math_problem : string → option string → Env → Solution * Env.
Variable answer : Solution → pyval.

(** [self.judge.evaluate_with_reasoning(question, answer, expected)] and the
    truth value of [evaluation['success']] *)
Variable evaluate_with_reasoning :
  string → pyval → pyval → Env → Evaluation * Env.
Variable evaluation_success_of : Evaluation → bool.

(** [self.retriever.retrieve(question, memories, top_k=..., expected_value=...)]
    and [self.retriever.format_memories_for_prompt(retrieved)] *)
Variable retrieve :
  string → list MemoryItem → Z → pyval → Env → Retrieved * Env.
Variable format_memories_for_prompt : Retrieved → Env → string * Env.

(** The body of the loop of [run_baseline_without_memory]. *)
Definition baseline_step (st : Phase1Experiment * Env) (problem : Problem)
  : Phase1Experiment * Env :=
  let '(solution, env) := solve_math_problem (question problem) None st.2 in
  let '(evaluation, env) :=
    evaluate_with_reasoning (question problem) (answer solution)
      (expected_value problem) env in
  let result :=
    {| Phase1.problem_id := id problem;
       Phase1.question := question problem;
       Phase1.evaluation_success := evaluation_success_of evaluation |} in
  (append_baseline result st.1, env).

(** [Phase1Experiment.run_baseline_without_memory]: the loop, then the
    accuracy that is printed. The experiment and the environment are returned
    also when the call raises, as they are at that moment. *)
Definition run_baseline_without_memory (problems : list Problem) (limit : Z)
    (self : Phase1Experiment) (env : Env)
  : result unit * Phase1Experiment * Env :=
  let '(self, env) := foldl baseline_step (self, env) (slice_to limit problems) in
  let outcome :=
    accuracy ← truediv (IZR (count_successes (results_baseline self)))
                       (IZR (len (results_baseline self)));
    mret tt in
  (outcome, self, env).

(** The body of the loop of [run_with_memory]. *)
Definition with_memory_step (st : Phase1Experiment * Env) (problem : Problem)
  : Phase1Experiment * Env :=
  let '(retrieved, env) :=
    retrieve (question problem) (get_all_memories (memory_bank st.1)) 2
      (expected_value problem) st.2 in
  let '(memory_context, env) := format_memories_for_prompt retrieved env in
  let '(solution, env) :=
    solve_math_problem (question problem) (Some memory_context) env in
  let '(evaluation, env) :=
    evaluate_with_reasoning (question problem) (answer solution)
      (expected_value problem) env in
  let result :=
    {| Phase1.problem_id := id problem;
       Phase1.question := question problem;
       Phase1.evaluation_success := evaluation_success_of evaluation |} in
  (append_with_memory result st.1, env).

(** [Phase1Experiment.run_with_memory]: nothing is done on an empty bank. *)
Definition run_with_memory (problems : list Problem) (limit : Z)
    (self : Phase1Experiment) (env : Env)
  : result unit * Phase1Experiment * Env :=
  if (__len__ (memory_bank self) =? 0)%nat then (Ok tt, self, env)
  else
    let '(self, env) :=
      foldl with_memory_step (self, env) (slice_to limit problems) in
    let outcome :=
      accuracy ← truediv (IZR (count_successes (results_with_memory self)))
                         (IZR (len (results_with_memory self)));
      mret tt in
    (outcome, self, env).

End Collaborators.

(** [Phase1Experiment.__init__], as far as the repository's own state goes:
    the bank is loaded from its default path, the result lists are empty. *)
Definition __init__ (random_seed : Z) (fs : filesystem)
  : result Phase1Experiment :=
  bank ← Memory.__init__ default_storage_path fs;
  mret {| memory_bank := bank;
          random_seed := random_seed;
          results_baseline := [];
          results_with_memory := [] |}.

Definition default_random_seed : Z := 42.

End Runs.

(** ** Sample collaborators *)

Module RunSamples.

(** A model that always answers "4", a judge that accepts when [4] was
    expected, a retriever that returns the first [top_k] memories; the
    environment counts the calls made. *)
Definition solve (question : string) (context : option string) (calls : nat)
  : string * nat := ("4", S calls).

Definition answer (solution : string) : pyval := PStr solution.

Definition judge (question : string) (answer expected : pyval) (calls : nat)
  : bool * nat :=
  (match expected with PInt 4 => true | _ => false end, S calls).

Definition verdict (evaluation : bool) : bool := evaluation.

Definition retrieve (question : string) (pool : list MemoryItem) (top_k : Z)
    (expected : pyval) (calls : nat) : list MemoryItem * nat :=
  (take (Z.to_nat top_k) pool, S calls).

Definition format (retrieved : list MemoryItem) (calls : nat) : string * nat :=
  (EmptyString, calls).

Definition problems : list Runs.Problem :=
  [ {| Runs.id := "p1"; Runs.question := "2 + 2";
       Runs.expected_value := PInt 4 |};
    {| Runs.id := "p2"; Runs.question := "2 + 3";
       Runs.expected_value := PInt 5 |} ].

End RunSamples.

(** ** The data model of the specification *)

Module SpecData.

(** Modelled from the spec: a valid [MemoryItem] (section 3): [title],
    [description], [content] and [source_problem_id] are non-empty strings,
    [success] is a boolean, [created_at] is a string, [embedding] is absent
    or a list of numbers. *)
Definition nonempty_text (v : pyval) : Prop :=
  ∃ s, v = PStr s ∧ s ≠ EmptyString.

Definition number (v : pyval) : Prop :=
  (∃ r, v = PFloat r) ∨ (∃ z, v = PInt z).

Definition valid_item (m : MemoryItem) : Prop :=
  nonempty_text (title m) ∧ nonempty_text (description m)
  ∧ nonempty_text (content m) ∧ nonempty_text (source_problem_id m)
  ∧ (∃ b, success m = PBool b) ∧ (∃ s, created_at m = PStr s)
  ∧ (embedding m = PNone ∨ ∃ l, embedding m = PList l ∧ Forall number l).

(** Modelled from the spec: a store that can be parsed into valid
    [MemoryItem] records (section 7): a list of records, each of which the
    constructor turns into a valid item. *)
Definition valid_store (f : file) : Prop :=
  ∃ records items,
    f = Json (PList records)
    ∧ Forall2 (λ x m, from_dict x = Ok m) records items
    ∧ Forall valid_item items.

(** A record with every field name and no valid value, and the store that
    holds it. *)
Definition untyped_item : MemoryItem :=
  {| title := PInt 1;
     description := PNone;
     content := PStr "";
     source_problem_id := PList [];
     success := PStr "yes";
     created_at := PInt 0;
     embedding := PStr "none" |}.

Definition untyped_store : file := Json (PList [to_dict untyped_item]).

End SpecData.

(** ** src/run_phase1.py: [_compute_wilson_ci] in binary64

    The same function with Python's floats as they are: IEEE 754 binary64
    numbers, every operation rounded to nearest, ties to even. It is used
    where rounding decides the behaviour. *)

Module F64.

Definition float : Set := PrimFloat.float.

Definition zero : float := PrimFloat.zero.
Definition one : float := PrimFloat.one.

(** The binary64 number nearest to [m * 2 ^ e] (infinite when out of range). *)
Definition nearest (m e : Z) : float :=
  FloatOps.SF2Prim (SpecFloat.binary_normalize 53 1024 m e false).

(** [float(z)], as done when an int meets a float in an operation: "int too
    large to convert to float" beyond the range. *)
Definition of_int (z : Z) : result float :=
  let f := nearest z 0 in
  if PrimFloat.is_infinity f then Raise OverflowError else Ok f.

(** [a / b] on two ints: the correctly rounded quotient. The quotient is
    taken with 65 bits or more and a sticky bit for the remainder, which
    rounds as the exact quotient does. *)
Definition int_truediv (a b : Z) : result float :=
  if (b =? 0)%Z then Raise ZeroDivisionError
  else if (a =? 0)%Z then
    Ok (if (b <? 0)%Z then PrimFloat.neg_zero else PrimFloat.zero)
  else
    let k := Z.max 0 (Z.log2 (Z.abs b) + 66 - Z.log2 (Z.abs a)) in
    let q := (Z.abs a * 2 ^ k / Z.abs b)%Z in
    let r := (Z.abs a * 2 ^ k mod Z.abs b)%Z in
    let m := (2 * q + (if (r =? 0)%Z then 0 else 1))%Z in
    let f :=
      nearest (if xorb (a <? 0)%Z (b <? 0)%Z then - m else m) (- (k + 1)) in
    if PrimFloat.is_infinity f then Raise OverflowError else Ok f.

(** [x / y] on floats, and [x / n] with an int divisor. *)
Definition truediv (x y : float) : result float :=
  if PrimFloat.eqb y zero then Raise ZeroDivisionError
  else Ok (PrimFloat.div x y).

Definition truediv_int (x : float) (n : Z) : result float :=
  d ← of_int n; truediv x d.

(** [math.sqrt(x)] *)
Definition math_sqrt (x : float) : result float :=
  if PrimFloat.ltb x zero then Raise ValueError else Ok (PrimFloat.sqrt x).

(** [max(0, x)] and [min(1, y)] *)
Definition max0 (x : float) : float :=
  if PrimFloat.ltb zero x then x else zero.
Definition min1 (y : float) : float :=
  if PrimFloat.ltb y one then y else one.

(** The literal [1.96]; [z ** 2] is its correctly rounded square. *)
Definition z95 : float := PrimFloat.div (nearest 196 0) (nearest 100 0).
Definition z95_squared : float := PrimFloat.mul z95 z95.

(** The literal [0.95], default of [confidence]. *)
Definition default_confidence : float :=
  PrimFloat.div (nearest 95 0) (nearest 100 0).

(** [Phase1Experiment._compute_wilson_ci] *)
Definition _compute_wilson_ci (successes n : Z) (confidence : float)
  : result (float * float) :=
  if (n =? 0)%Z then Ok (zero, zero) else
  p ← int_truediv successes n;
  q ← truediv_int z95_squared n;
  let denominator := PrimFloat.add one q in
  h ← truediv_int z95_squared (2 * n);
  center ← truediv (PrimFloat.add p h) denominator;
  v ← truediv_int (PrimFloat.mul p (PrimFloat.sub one p)) n;
  w ← truediv_int z95_squared (4 * n ^ 2);
  root ← math_sqrt (PrimFloat.add v w);
  margin ← truediv (PrimFloat.mul z95 root) denominator;
  mret (max0 (PrimFloat.sub center margin),
        min1 (PrimFloat.add center margin)).


Definition radicand (successes n : Z) : result float :=
  p ← int_truediv successes n;
  v ← truediv_int (PrimFloat.mul p (PrimFloat.sub one p)) n;
  w ← truediv_int z95_squared (4 * n ^ 2);
  mret (PrimFloat.add v w).



End F64.

(** * Properties *)

(** ** The result monad *)

Lemma mapM_result_cons {A B} (f : A → result B) x l :
  mapM f (x :: l) = y ← f x; k ← mapM f l; mret (y :: k).
Proof. reflexivity. Qed.

Lemma mapM_result_Ok {A B} (f : A → result B) l k :
  mapM f l = Ok k ↔ Forall2 (λ x y, f x = Ok y) l k.
Proof.
  revert k. induction l as [|x l IH]; intros k.
  - split.
    + intros [= <-]. constructor.
    + intros ->%Forall2_nil_inv_l. done.
  - rewrite mapM_result_cons. split.
    + destruct (f x) as [y|e] eqn:Hx; [|done]. simpl.
      destruct (mapM f l) as [k'|e] eqn:Hl; [|done]. simpl.
      intros [= <-]. constructor; [done|]. by apply IH.
    + intros (y & k' & Hy & Hk & ->)%Forall2_cons_inv_l.
      rewrite Hy. simpl. apply IH in Hk. rewrite Hk. done.
Qed.

Lemma mapM_result_Exists_raises {A B} (f : A → result B) l :
  Exists (λ x, raises (f x)) l → raises (mapM f l).
Proof.
  induction 1 as [x l [e He]|x l _ IH].
  - exists e. rewrite mapM_result_cons, He. done.
  - rewrite mapM_result_cons. destruct (f x) as [y|e]; simpl; [|by eexists].
    destruct IH as [e ->]. by eexists.
Qed.

(** ** [MemoryItem] and [ReasoningBank] *)

Lemma from_dict_to_dict (m : MemoryItem) : from_dict (to_dict m) = Ok m.
Proof.
  unfold from_dict, to_dict.
  rewrite bool_decide_eq_true_2.
  2:{ rewrite !dom_insert_L, dom_empty_L. unfold field_names. set_solver. }
  unfold required. simplify_map_eq. simpl. by destruct m.
Qed.

(** The constructor rejects a record with a missing or an unknown field and
    a record that is not a mapping; [embedding] may be left out. *)
Example from_dict_missing_field :
  from_dict (PDict {[ "title" := PStr "t" ]}) = Raise TypeError.
Proof. vm_compute. reflexivity. Qed.

Example from_dict_unknown_field :
  from_dict (PDict (<["score" := PInt 1]> ∅)) = Raise TypeError.
Proof. vm_compute. reflexivity. Qed.

Example from_dict_not_a_mapping :
  from_dict (PStr "title") = Raise TypeError.
Proof. reflexivity. Qed.

Example from_dict_default_embedding :
  embedding <$>
    from_dict (PDict (<["title" := PStr "t"]>
                     (<["description" := PStr "d"]>
                     (<["content" := PStr "c"]>
                     (<["source_problem_id" := PStr "p"]>
                     (<["success" := PBool true]>
                     (<["created_at" := PStr "2025-01-01"]> ∅)))))))
  = Ok PNone.
Proof. vm_compute. reflexivity. Qed.

Lemma mapM_from_dict_to_dict (ms : list MemoryItem) :
  mapM from_dict (to_dict <$> ms) = Ok ms.
Proof.
  apply mapM_result_Ok.
  induction ms; constructor; auto using from_dict_to_dict.
Qed.

Lemma load_persisted (self other : ReasoningBank) (fs : filesystem) :
  storage_path other = storage_path self →
  persisted self fs →
  load other fs = Ok self.
Proof.
  unfold persisted, serialization, load, read_json, set_memories.
  intros Hpath Hfile. rewrite Hpath, Hfile. simpl.
  rewrite mapM_from_dict_to_dict. simpl. by destruct self.
Qed.

Lemma save_persisted (self : ReasoningBank) (fs : filesystem) :
  persisted self (save self fs).
Proof. unfold persisted, save, write_json. simpl. apply lookup_insert_eq. Qed.

(** C4. Round trip: whatever the sequence of items, the file system and the
    previous contents of the loading bank, saving a bank and then loading its
    backing store (into the same object, into another one bound to the same
    path, or through the constructor) gives back the saved sequence, item for
    item and in the same order; at the level of the records, [from_dict]
    undoes [to_dict]. *)
Theorem save_load_roundtrip (items stale : list MemoryItem) (path : string)
    (fs : filesystem) :
  let bank := {| storage_path := path; memories := items |} in
  load {| storage_path := path; memories := stale |} (save bank fs) = Ok bank
  ∧ __init__ path (save bank fs) = Ok bank
  ∧ mapM from_dict (to_dict <$> items) = Ok items.
Proof.
  intros bank. split_and!.
  - apply load_persisted; [done|]. apply save_persisted.
  - apply load_persisted; [done|]. apply save_persisted.
  - apply mapM_from_dict_to_dict.
Qed.

Lemma load_missing (self : ReasoningBank) (fs : filesystem) :
  files fs !! storage_path self = None →
  load self fs = Ok (set_memories self []).
Proof. unfold load, read_json. by intros ->. Qed.

Lemma load_malformed (self : ReasoningBank) (fs : filesystem) :
  files fs !! storage_path self = Some Malformed →
  load self fs = Raise JSONDecodeError.
Proof. unfold load, read_json. by intros ->. Qed.

Lemma load_json (self : ReasoningBank) (fs : filesystem) (data : pyval) :
  files fs !! storage_path self = Some (Json data) →
  load self fs =
    (ms ← (elems ← iter data; mapM from_dict elems); mret (set_memories self ms)).
Proof. unfold load, read_json. by intros ->. Qed.

(** C5, as amended. Loading a bank whose backing store is missing gives the
    empty bank and no error. When the store is present, what is surfaced to
    the caller is what decoding, iterating or constructing raises: a store
    that does not decode, a decoded value that cannot be iterated, or a
    single element that the constructor rejects makes the load raise (no
    bank is produced, nothing is assigned); a load that returns has converted
    every element of the store, in order. The values of the fields are not
    examined. The constructor is the load of a fresh object. *)
Theorem load_failure_policy (self : ReasoningBank) (fs : filesystem) :
  (files fs !! storage_path self = None →
     load self fs = Ok (set_memories self []))
  ∧ (files fs !! storage_path self = Some Malformed →
       load self fs = Raise JSONDecodeError)
  ∧ (∀ data, files fs !! storage_path self = Some (Json data) →
       (raises (iter data) → raises (load self fs))
       ∧ (∀ elems, iter data = Ok elems →
            (Exists (λ x, raises (from_dict x)) elems → raises (load self fs))
            ∧ (∀ bank, load self fs = Ok bank →
                 storage_path bank = storage_path self
                 ∧ Forall2 (λ x m, from_dict x = Ok m) elems (memories bank))))
  ∧ __init__ (storage_path self) fs =
      load {| storage_path := storage_path self; memories := [] |} fs.
Proof.
  split_and!; [apply load_missing | apply load_malformed | | done].
  intros data Hfile. rewrite (load_json _ _ _ Hfile). split.
  - intros [e ->]. by exists e.
  - intros elems ->. simpl. split.
    + intros [e ->]%mapM_result_Exists_raises. by exists e.
    + intros bank. destruct (mapM from_dict elems) as [ms|e] eqn:Hms; [|done].
      simpl. intros [= <-]. split; [done|]. by apply mapM_result_Ok.
Qed.

Lemma load_failure_policy_witness :
  load fresh_bank empty_fs = Ok (set_memories fresh_bank [])
  ∧ load fresh_bank (fs_with Malformed) = Raise JSONDecodeError
  ∧ raises (load fresh_bank (fs_with truncated_store)).
Proof.
  split_and!.
  - apply (proj1 (load_failure_policy fresh_bank empty_fs)). reflexivity.
  - apply (proj1 (proj2 (load_failure_policy fresh_bank (fs_with Malformed)))).
    reflexivity.
  - destruct (load_failure_policy fresh_bank (fs_with truncated_store))
      as (_ & _ & Hjson & _).
    destruct (Hjson _ eq_refl) as [_ Helems].
    destruct (Helems _ eq_refl) as [Hraise _].
    apply Hraise. right. left. exists TypeError. reflexivity.
Defined.

Lemma not_valid_store_untyped : ¬ SpecData.valid_store SpecData.untyped_store.
Proof.
  intros (records & items & [= <-] & Hall & Hvalid).
  apply Forall2_cons_inv_l in Hall as (m & items' & Hm & _ & ->).
  rewrite from_dict_to_dict in Hm. injection Hm as <-.
  apply Forall_cons in Hvalid as [(Htitle & _) _].
  by destruct Htitle as (s & [=] & _).
Qed.

(** C5, as stated, fails: a store that cannot be parsed into valid
    [MemoryItem] records is not always surfaced. A store holding an empty
    JSON object is no list of records and loads as the empty bank; a store
    whose only record has every field name and no valid value loads as a
    bank holding that record. *)
Lemma load_accepts_invalid_stores :
  (¬ SpecData.valid_store (Json (PDict ∅))
   ∧ load fresh_bank (fs_with (Json (PDict ∅)))
     = Ok (set_memories fresh_bank []))
  ∧ (¬ SpecData.valid_store SpecData.untyped_store
     ∧ load fresh_bank (fs_with SpecData.untyped_store)
       = Ok (set_memories fresh_bank [SpecData.untyped_item])).
Proof.
  split_and!.
  - by intros (records & items & [=] & _).
  - reflexivity.
  - apply not_valid_store_untyped.
  - vm_compute. reflexivity.
Qed.

(** C6. Every mutating operation persists the full sequence. [add_memory]
    appends its item, [add_memories] appends its items in order, [clear]
    empties the sequence; after each of them the backing store holds exactly
    the serialization of the sequence the bank now has, and the call has
    written once, after the in-memory update: the one write logged is that of
    the full new sequence (for a batch, of the old sequence followed by the
    whole batch). *)
Theorem mutations_persist (self : ReasoningBank) (fs : filesystem)
    (memory : MemoryItem) (batch : list MemoryItem) :
  (memories (add_memory memory self fs).1 = memories self ++ [memory]
   ∧ persisted_once self fs (add_memory memory self fs).1
       (add_memory memory self fs).2)
  ∧ (memories (add_memories batch self fs).1 = memories self ++ batch
     ∧ persisted_once self fs (add_memories batch self fs).1
         (add_memories batch self fs).2)
  ∧ (memories (clear self fs).1 = []
     ∧ persisted_once self fs (clear self fs).1 (clear self fs).2).
Proof.
  unfold persisted_once, persisted, add_memory, add_memories, clear, save,
    write_json, serialization; simpl.
  split_and!; try done; try apply lookup_insert_eq;
    intros p Hp; by apply lookup_insert_ne.
Qed.

(** ** Partial primitives of the statistics *)

Local Open Scope R_scope.

Lemma result_bind_Ok {A B} (f : A → result B) (a : A) : Ok a ≫= f = f a.
Proof. reflexivity. Qed.

Lemma truediv_Ok (x y : R) : y ≠ 0 → truediv x y = Ok (x / y).
Proof. unfold truediv. intros Hy. by destruct (Req_dec_T y 0). Qed.

Lemma math_sqrt_Ok (x : R) : 0 <= x → math_sqrt x = Ok (sqrt x).
Proof. unfold math_sqrt. intros Hx. destruct (Rlt_dec x 0); [lra|done]. Qed.

Lemma math_sqrt_negative (x : R) : x < 0 → math_sqrt x = Raise ValueError.
Proof. unfold math_sqrt. intros Hx. destruct (Rlt_dec x 0); [done|lra]. Qed.

Lemma max_Rmax (a b : R) : Py.max a b = Rmax a b.
Proof.
  unfold Py.max, gt, Rmax. destruct (Rgt_dec b a), (Rle_dec a b); lra.
Qed.

Lemma min_Rmin (a b : R) : Py.min a b = Rmin a b.
Proof.
  unfold Py.min, lt, Rmin. destruct (Rlt_dec b a), (Rle_dec a b); lra.
Qed.

Lemma gt_true (x y : R) : gt x y = true ↔ x > y.
Proof. unfold gt. destruct (Rgt_dec x y); split; (done || lra). Qed.

Lemma div_nonneg (x d : R) : 0 <= x → 0 < d → 0 <= x / d.
Proof.
  intros Hx Hd. apply Rmult_le_pos; [done|]. left. by apply Rinv_0_lt_compat.
Qed.

Lemma div_le_1 (x d : R) : x <= d → 0 < d → x / d <= 1.
Proof.
  intros Hx Hd. pose proof (Rinv_0_lt_compat _ Hd).
  assert (d * / d = 1) by (apply Rinv_r; lra). unfold Rdiv. nra.
Qed.

(** ** The Wilson bounds as functions of the proportion

    With [k = 1/n], the radicand is [g p = p (1 - p) k + z² k² / 4] and the
    lower bound is [(p + z² k / 2 - z √(g p)) / (1 + z² k)]. The facts below
    are about a root [r] of [g p], whatever way it was obtained. *)

Section WilsonReal.

Variables z k : R.
Hypothesis z_pos : 0 < z.
Hypothesis k_pos : 0 < k.

Local Abbreviation g p := (p * (1 - p) * k + z ^ 2 * k ^ 2 / 4).

Lemma g_pos p : 0 <= p <= 1 → 0 < g p.
Proof.
  intros Hp. assert (0 <= p * (1 - p)) by nra.
  assert (0 < z ^ 2 * k ^ 2) by (apply Rmult_lt_0_compat; nra). nra.
Qed.

(** The root lies above the tangent of slope [-z k] through [p = 1/2]. *)
Lemma root_above_tangent p r :
  0 <= p <= 1 → 0 <= r → r * r = g p → z * (1 - 2 * p) * k / 2 <= r.
Proof.
  intros Hp Hr Hrr.
  destruct (Rle_or_lt (z * (1 - 2 * p) * k / 2) r) as [|Hlt]; [done|exfalso].
  assert (r * r < (z * (1 - 2 * p) * k / 2) * (z * (1 - 2 * p) * k / 2)) by nra.
  assert (0 <= p * (1 - p)) by nra.
  assert (0 <= p * (1 - p) * k) by nra.
  assert (0 <= z ^ 2 * k) by nra.
  assert (0 <= (p * (1 - p) * k) * (z ^ 2 * k)) by nra.
  nra.
Qed.

Lemma root_above_tangent_strict p r :
  0 < p <= 1 → 0 <= r → r * r = g p → z * (1 - 2 * p) * k / 2 < r.
Proof.
  intros Hp Hr Hrr.
  destruct (Rle_lt_or_eq_dec _ _
              (root_above_tangent p r ltac:(lra) Hr Hrr)) as [|Heq];
    [done|exfalso].
  rewrite <- Heq in Hrr.
  assert (0 < z * k) as Hzk by nra.
  assert (0 <= 1 - 2 * p) as Hhalf.
  { destruct (Rle_or_lt 0 (1 - 2 * p)) as [|Hneg]; [done|exfalso].
    assert (z * k * (1 - 2 * p) < 0) by nra. nra. }
  assert (p * (1 - p) * (k * (1 + z ^ 2 * k)) = 0) as H0 by nra.
  assert (0 < k * (1 + z ^ 2 * k)) as Hk by nra.
  assert (0 < p * (1 - p)) as Hpp by nra.
  pose proof (Rmult_lt_0_compat _ _ Hpp Hk). lra.
Qed.

(** The numerator of the lower bound grows strictly with the proportion. *)
Lemma lower_numerator_mono p1 p2 r1 r2 :
  0 <= p1 → p1 < p2 → p2 <= 1 → 0 <= r1 → 0 <= r2 →
  r1 * r1 = g p1 → r2 * r2 = g p2 →
  p1 - z * r1 < p2 - z * r2.
Proof.
  intros H0 H12 H1 Hr1 Hr2 Hg1 Hg2.
  pose proof (root_above_tangent p1 r1 ltac:(lra) Hr1 Hg1) as T1.
  pose proof (root_above_tangent_strict p2 r2 ltac:(lra) Hr2 Hg2) as T2.
  assert (0 < r2).
  { pose proof (g_pos p2 ltac:(lra)). nra. }
  assert (r2 * r2 - r1 * r1 = (p2 - p1) * (1 - p1 - p2) * k) as Hd.
  { rewrite Hg1, Hg2. ring. }
  assert ((p2 - p1) * (z * (1 - p1 - p2) * k) < (p2 - p1) * (r1 + r2)) as Hm.
  { apply Rmult_lt_compat_l; lra. }
  assert ((r1 + r2) * (z * (r2 - r1)) < (r1 + r2) * (p2 - p1)) as Hf by nra.
  apply Rmult_lt_reg_l in Hf; lra.
Qed.

Lemma lower_numerator_nonneg p r :
  0 <= p <= 1 → 0 <= r → r * r = g p → 0 <= p + z ^ 2 * k / 2 - z * r.
Proof.
  intros Hp Hr Hg.
  destruct (Rle_or_lt 0 (p + z ^ 2 * k / 2 - z * r)) as [|Hlt]; [done|exfalso].
  assert (0 <= p + z ^ 2 * k / 2) by nra.
  assert ((p + z ^ 2 * k / 2) * (p + z ^ 2 * k / 2) < (z * r) * (z * r)) by nra.
  assert (0 <= p * p * (1 + z ^ 2 * k)) by nra.
  nra.
Qed.

End WilsonReal.

(** ** The Wilson interval of the specification, for [z > 0] and [n > 0] *)

Section WilsonSpec.

Variable z : R.
Variable n : Z.
Hypothesis z_pos : 0 < z.
Hypothesis n_pos : (0 < n)%Z.

Lemma IZR_n_pos : 0 < IZR n.
Proof. by apply IZR_lt. Qed.

Lemma inv_n_pos : 0 < / IZR n.
Proof. apply Rinv_0_lt_compat, IZR_n_pos. Qed.

Lemma denominator_pos : 0 < 1 + z ^ 2 * / IZR n.
Proof. pose proof inv_n_pos. nra. Qed.

Lemma radicand_poly successes :
  Spec.radicand z successes n =
    (IZR successes / IZR n) * (1 - IZR successes / IZR n) * / IZR n
    + z ^ 2 * (/ IZR n) ^ 2 / 4.
Proof. pose proof IZR_n_pos. unfold Spec.radicand. field. lra. Qed.

Lemma center_minus_margin successes :
  Spec.center z successes n - Spec.margin z successes n =
    (IZR successes / IZR n + z ^ 2 * / IZR n / 2
     - z * sqrt (Spec.radicand z successes n)) / (1 + z ^ 2 * / IZR n).
Proof.
  pose proof IZR_n_pos. unfold Spec.center, Spec.margin. field. split; nra.
Qed.

Lemma center_plus_margin successes :
  Spec.center z successes n + Spec.margin z successes n =
    (IZR successes / IZR n + z ^ 2 * / IZR n / 2
     + z * sqrt (Spec.radicand z successes n)) / (1 + z ^ 2 * / IZR n).
Proof.
  pose proof IZR_n_pos. unfold Spec.center, Spec.margin. field. split; nra.
Qed.

Lemma proportion_range successes :
  (0 <= successes <= n)%Z → 0 <= IZR successes / IZR n <= 1.
Proof.
  intros Hs. pose proof IZR_n_pos as Hn. pose proof inv_n_pos as Hk.
  assert (0 <= IZR successes) by (apply IZR_le; lia).
  assert (IZR successes <= IZR n) by (apply IZR_le; lia).
  assert (IZR n * / IZR n = 1) by (apply Rinv_r; lra).
  unfold Rdiv. split; nra.
Qed.

Lemma proportion_lt s1 s2 :
  (s1 < s2)%Z → IZR s1 / IZR n < IZR s2 / IZR n.
Proof.
  intros Hs. pose proof inv_n_pos. apply IZR_lt in Hs. unfold Rdiv. nra.
Qed.

Lemma radicand_pos successes :
  (0 <= successes <= n)%Z → 0 < Spec.radicand z successes n.
Proof.
  intros Hs. rewrite radicand_poly.
  apply g_pos; auto using proportion_range, inv_n_pos.
Qed.

Lemma sqrt_radicand successes :
  (0 <= successes <= n)%Z →
  0 <= sqrt (Spec.radicand z successes n) ∧
  sqrt (Spec.radicand z successes n) * sqrt (Spec.radicand z successes n) =
    (IZR successes / IZR n) * (1 - IZR successes / IZR n) * / IZR n
    + z ^ 2 * (/ IZR n) ^ 2 / 4.
Proof.
  intros Hs. split; [apply sqrt_pos|].
  rewrite sqrt_sqrt by (left; by apply radicand_pos). apply radicand_poly.
Qed.

Lemma margin_nonneg successes : 0 <= Spec.margin z successes n.
Proof.
  unfold Spec.margin. pose proof (sqrt_pos (Spec.radicand z successes n)).
  pose proof denominator_pos. apply div_nonneg; [nra|]. unfold Rdiv. lra.
Qed.

Lemma center_range successes :
  (0 <= successes <= n)%Z → 0 <= Spec.center z successes n <= 1.
Proof.
  intros Hs. pose proof (proportion_range _ Hs). pose proof inv_n_pos.
  pose proof IZR_n_pos. pose proof denominator_pos as Hd.
  assert (Spec.center z successes n =
          (IZR successes / IZR n + z ^ 2 * / IZR n / 2) / (1 + z ^ 2 * / IZR n))
    as -> by (unfold Spec.center; field; split; nra).
  split.
  - apply div_nonneg; nra.
  - apply div_le_1; nra.
Qed.

(** In exact arithmetic the lower bound is never negative. *)
Lemma lower_nonneg successes :
  (0 <= successes <= n)%Z →
  0 <= Spec.center z successes n - Spec.margin z successes n.
Proof.
  intros Hs. rewrite center_minus_margin.
  destruct (sqrt_radicand _ Hs) as [Hr Hrr].
  apply div_nonneg; [|apply denominator_pos].
  apply lower_numerator_nonneg; auto using proportion_range, inv_n_pos.
Qed.

(** The lower bound grows strictly with the number of successes. *)
Lemma lower_strict_mono s1 s2 :
  (0 <= s1)%Z → (s1 < s2)%Z → (s2 <= n)%Z →
  Spec.center z s1 n - Spec.margin z s1 n
  < Spec.center z s2 n - Spec.margin z s2 n.
Proof.
  intros H0 H12 H2. rewrite !center_minus_margin.
  destruct (sqrt_radicand s1 ltac:(lia)) as [Hr1 Hrr1].
  destruct (sqrt_radicand s2 ltac:(lia)) as [Hr2 Hrr2].
  pose proof (proportion_range s1 ltac:(lia)).
  pose proof (proportion_range s2 ltac:(lia)).
  pose proof (proportion_lt _ _ H12).
  apply Rmult_lt_compat_r; [apply Rinv_0_lt_compat, denominator_pos|].
  assert (IZR s1 / IZR n - z * sqrt (Spec.radicand z s1 n)
          < IZR s2 / IZR n - z * sqrt (Spec.radicand z s2 n)).
  { apply lower_numerator_mono with (k := / IZR n);
      auto using inv_n_pos; lra. }
  lra.
Qed.

(** At the two extreme proportions the root is rational. *)
Lemma sqrt_radicand_extreme successes :
  successes = 0%Z ∨ successes = n →
  sqrt (Spec.radicand z successes n) = z * / IZR n / 2.
Proof.
  intros Hs. pose proof IZR_n_pos. pose proof inv_n_pos.
  rewrite <- (sqrt_square (z * / IZR n / 2)) by nra. f_equal.
  rewrite radicand_poly. destruct Hs as [-> | ->]; field; lra.
Qed.

Lemma upper_all_successes : Spec.center z n n + Spec.margin z n n = 1.
Proof.
  pose proof IZR_n_pos.
  rewrite center_plus_margin, sqrt_radicand_extreme by auto. field. split; nra.
Qed.

Lemma lower_all_successes :
  Spec.center z n n - Spec.margin z n n = IZR n / (IZR n + z ^ 2).
Proof.
  pose proof IZR_n_pos.
  rewrite center_minus_margin, sqrt_radicand_extreme by auto. field. split; nra.
Qed.

Lemma lower_no_successes : Spec.center z 0 n - Spec.margin z 0 n = 0.
Proof.
  pose proof IZR_n_pos.
  rewrite center_minus_margin, sqrt_radicand_extreme by auto. field. split; nra.
Qed.

Lemma upper_no_successes :
  Spec.center z 0 n + Spec.margin z 0 n = z ^ 2 / (IZR n + z ^ 2).
Proof.
  pose proof IZR_n_pos.
  rewrite center_plus_margin, sqrt_radicand_extreme by auto. field. split; nra.
Qed.

End WilsonSpec.

(** ** [_compute_wilson_ci] *)

Lemma z95_pos : 0 < 1.96.
Proof. lra. Qed.

Lemma compute_wilson_ci_pos (successes n : Z) (confidence : R) :
  (0 < n)%Z →
  _compute_wilson_ci successes n confidence =
    (root ← math_sqrt (Spec.radicand 1.96 successes n);
     mret (Py.max 0 (Spec.center 1.96 successes n
                       - 1.96 * root / (1 + 1.96 ^ 2 / IZR n)),
           Py.min 1 (Spec.center 1.96 successes n
                       + 1.96 * root / (1 + 1.96 ^ 2 / IZR n)))).
Proof.
  intros Hn. unfold _compute_wilson_ci.
  destruct (Z.eqb_spec n 0) as [->|_]; [lia|].
  assert (0 < IZR n) as Hn' by (by apply IZR_lt).
  assert (0 < 1.96 ^ 2 / IZR n) as Hq.
  { apply Rdiv_lt_0_compat; lra. }
  assert (IZR (4 * n ^ 2) = 4 * IZR n ^ 2) as ->.
  { rewrite Z.pow_2_r, !mult_IZR. ring. }
  rewrite mult_IZR.
  rewrite (truediv_Ok (IZR successes)) by lra. rewrite result_bind_Ok.
  rewrite (truediv_Ok (1.96 ^ 2) (IZR n)) by lra. rewrite result_bind_Ok.
  rewrite (truediv_Ok (1.96 ^ 2) (2 * IZR n)) by lra. rewrite result_bind_Ok.
  rewrite (truediv_Ok _ (1 + _)) by lra. rewrite result_bind_Ok.
  rewrite (truediv_Ok _ (IZR n)) by lra. rewrite result_bind_Ok.
  rewrite (truediv_Ok _ (4 * _)) by nra. rewrite result_bind_Ok.
  unfold Spec.radicand, Spec.center.
  destruct (math_sqrt _) as [root|e]; [|done]. rewrite !result_bind_Ok.
  rewrite (truediv_Ok _ (1 + _)) by lra. done.
Qed.

Lemma compute_wilson_ci_in_range (successes n : Z) (confidence : R) :
  (0 < n)%Z → (0 <= successes <= n)%Z →
  _compute_wilson_ci successes n confidence =
    Ok (Py.max 0 (Spec.center 1.96 successes n - Spec.margin 1.96 successes n),
        Py.min 1 (Spec.center 1.96 successes n + Spec.margin 1.96 successes n)).
Proof.
  intros Hn Hs. rewrite compute_wilson_ci_pos by done.
  rewrite math_sqrt_Ok; [done|].
  left. apply radicand_pos; (done || lra).
Qed.

Lemma wilsonInterval_in_range (z : R) (successes n : Z) :
  0 < z → (0 < n)%Z → (0 <= successes <= n)%Z →
  Spec.wilsonInterval successes n z =
    (Spec.center z successes n - Spec.margin z successes n,
     Rmin 1 (Spec.center z successes n + Spec.margin z successes n)).
Proof.
  intros Hz Hn Hs. unfold Spec.wilsonInterval, Spec.clamp.
  destruct (Z.eqb_spec n 0) as [->|_]; [lia|].
  assert (0 <= Spec.center z successes n - Spec.margin z successes n)
    by (by apply lower_nonneg).
  assert (0 <= Spec.margin z successes n) by (by apply margin_nonneg).
  assert (0 <= Spec.center z successes n <= 1) by (by apply center_range).
  f_equal.
  - rewrite Rmin_right by lra. by rewrite Rmax_right.
  - rewrite Rmax_right; [done|]. apply Rmin_glb; lra.
Qed.

Lemma compute_wilson_ci_spec (successes n : Z) (confidence : R) :
  (0 <= successes <= n)%Z →
  _compute_wilson_ci successes n confidence =
    Ok (Spec.wilsonInterval successes n 1.96).
Proof.
  intros Hs. destruct (Z.eq_dec n 0%Z) as [->|Hn]; [done|].
  rewrite compute_wilson_ci_in_range by lia.
  rewrite wilsonInterval_in_range by (lra || lia).
  rewrite max_Rmax, min_Rmin, Rmax_right; [done|].
  apply lower_nonneg; (lra || lia).
Qed.

Lemma wilsonInterval_bounds (z : R) (successes n : Z) :
  0 < z → (0 <= successes <= n)%Z →
  0 <= (Spec.wilsonInterval successes n z).1
  ∧ (Spec.wilsonInterval successes n z).1 <= (Spec.wilsonInterval successes n z).2
  ∧ (Spec.wilsonInterval successes n z).2 <= 1.
Proof.
  intros Hz Hs. destruct (Z.eq_dec n 0%Z) as [->|Hn].
  - cbn. lra.
  - rewrite wilsonInterval_in_range by (done || lia). cbn [fst snd].
    assert (0 <= Spec.center z successes n - Spec.margin z successes n)
      by (apply lower_nonneg; (done || lia)).
    assert (0 <= Spec.margin z successes n)
      by (apply margin_nonneg; (done || lia)).
    assert (0 <= Spec.center z successes n <= 1)
      by (apply center_range; (done || lia)).
    split_and!; [done| |apply Rmin_l]. apply Rmin_glb; lra.
Qed.

(** C2. Wilson interval bounds. For [0 <= successes <= n] the computation
    returns an interval [(lower, upper)] with [0 <= lower <= upper <= 1]; for
    [n = 0] it is exactly [(0, 0)]; and the interval the code builds with the
    one-sided [max(0, center - margin)] and [min(1, center + margin)] is the
    one of the specification, where each bound is clamped to [0, 1] on both
    sides (for the code's [z = 1.96]). *)
Theorem wilson_interval_bounds (successes n : Z) (confidence : R) :
  (0 <= successes <= n)%Z →
  ∃ lower upper,
    _compute_wilson_ci successes n confidence = Ok (lower, upper)
    ∧ 0 <= lower ∧ lower <= upper ∧ upper <= 1
    ∧ (n = 0%Z → lower = 0 ∧ upper = 0)
    ∧ (lower, upper) = Spec.wilsonInterval successes n 1.96.
Proof.
  intros Hs.
  pose proof (compute_wilson_ci_spec successes n confidence Hs) as Hspec.
  pose proof (wilsonInterval_bounds 1.96 successes n z95_pos Hs) as Hb.
  destruct (Spec.wilsonInterval successes n 1.96) as [lower upper] eqn:Hiv.
  exists lower, upper. cbn [fst snd] in Hb.
  split_and!; try done; try apply Hb.
  intros ->. cbn in Hiv. by injection Hiv as <- <-.
Qed.

Lemma wilson_interval_bounds_witness :
  ∃ lower upper,
    _compute_wilson_ci 45 50 default_confidence = Ok (lower, upper)
    ∧ 0 <= lower ∧ lower <= upper ∧ upper <= 1
    ∧ (50%Z = 0%Z → lower = 0 ∧ upper = 0)
    ∧ (lower, upper) = Spec.wilsonInterval 45 50 1.96.
Proof. apply (wilson_interval_bounds 45 50 default_confidence). lia. Defined.

(** C7. The [confidence] argument should set [z]; the code never reads it.
    Called for zero successes out of one with [z = 2.576], the function does
    not return the interval for [z = 2.576] but the one it returns for
    [1.96], its hard-coded value; called with its own default [0.95] it does
    not return the interval for that argument either. *)
Lemma confidence_argument_not_used :
  _compute_wilson_ci 0 1 2.576 ≠ Ok (Spec.wilsonInterval 0 1 2.576)
  ∧ _compute_wilson_ci 0 1 2.576 = _compute_wilson_ci 0 1 1.96
  ∧ _compute_wilson_ci 0 1 default_confidence
      ≠ Ok (Spec.wilsonInterval 0 1 default_confidence).
Proof.
  unfold default_confidence. split_and!; [|done|];
  rewrite compute_wilson_ci_spec by lia;
  rewrite !wilsonInterval_in_range by (lra || lia);
  rewrite !upper_no_successes by (lra || lia);
  (intros [= _ Hupper]; revert Hupper;
   rewrite !Rmin_right; [intros Hupper; lra | apply div_le_1; lra..]).
Qed.


(** ** [save_results] *)

Lemma count_successes_range (rs : list RunResult) :
  (0 <= count_successes rs <= len rs)%Z.
Proof.
  unfold count_successes, len.
  pose proof (length_filter (λ r, evaluation_success r = true) rs). lia.
Qed.

Lemma len_cons_pos (r : RunResult) (rs : list RunResult) :
  (0 < len (r :: rs))%Z.
Proof. unfold len. simpl. lia. Qed.

Lemma accuracy_Ok (rs : list RunResult) :
  match rs with
  | [] => Ok 0
  | _ => truediv (IZR (count_successes rs)) (IZR (len rs))
  end = Ok (Spec.accuracy rs).
Proof.
  destruct rs as [|r rs]; [done|].
  rewrite truediv_Ok; [done|].
  pose proof (len_cons_pos r rs) as Hlen. apply IZR_lt in Hlen. lra.
Qed.

Lemma accuracy_range (rs : list RunResult) : 0 <= Spec.accuracy rs <= 1.
Proof.
  destruct rs as [|r rs]; [simpl; lra|].
  apply proportion_range; [apply len_cons_pos|apply count_successes_range].
Qed.

Lemma save_results_Ok (self : Phase1Experiment) :
  save_results self = Ok (Spec.summary self).
Proof.
  unfold save_results.
  rewrite !accuracy_Ok, !result_bind_Ok.
  rewrite !compute_wilson_ci_spec by apply count_successes_range.
  rewrite !result_bind_Ok.
  destruct (gt (Spec.accuracy (results_baseline self)) 0) eqn:Hgt.
  - apply gt_true in Hgt. rewrite truediv_Ok by lra.
    rewrite result_bind_Ok. unfold Spec.summary. simpl.
    apply gt_true in Hgt. by rewrite Hgt.
  - rewrite result_bind_Ok. unfold Spec.summary. simpl. by rewrite Hgt.
Qed.

(** C1. For every pair of outcome arms the summary is produced, its interval
    fields are the Wilson intervals of the two arms, its
    [statistically_significant] flag is true exactly when the lower bound of
    the memory arm is strictly greater than the upper bound of the baseline
    arm, and [confidence_intervals_overlap] is the negation of that flag. *)
Theorem significance_flag (self : Phase1Experiment) :
  ∃ s, save_results self = Ok s
    ∧ _compute_wilson_ci (count_successes (results_baseline self))
        (len (results_baseline self)) default_confidence
      = Ok (baseline_ci_lower s, baseline_ci_upper s)
    ∧ _compute_wilson_ci (count_successes (results_with_memory self))
        (len (results_with_memory self)) default_confidence
      = Ok (with_memory_ci_lower s, with_memory_ci_upper s)
    ∧ (statistically_significant s = true
       ↔ with_memory_ci_lower s > baseline_ci_upper s)
    ∧ confidence_intervals_overlap s = negb (statistically_significant s).
Proof.
  exists (Spec.summary self). split_and!.
  - apply save_results_Ok.
  - rewrite compute_wilson_ci_spec by apply count_successes_range.
    simpl. by destruct (Spec.wilsonInterval _ _ _).
  - rewrite compute_wilson_ci_spec by apply count_successes_range.
    simpl. by destruct (Spec.wilsonInterval _ _ _).
  - apply gt_true.
  - done.
Qed.

(** C8. The summary is produced for every pair of arms, a baseline accuracy
    of zero included. Its absolute improvement is the memory accuracy minus
    the baseline accuracy; its relative improvement is the absolute one
    divided by the baseline accuracy when that accuracy is positive, and [0]
    when it is zero (an accuracy is never negative). *)
Theorem improvements (self : Phase1Experiment) :
  ∃ s, save_results self = Ok s
    ∧ baseline_accuracy s = Spec.accuracy (results_baseline self)
    ∧ with_memory_accuracy s = Spec.accuracy (results_with_memory self)
    ∧ absolute_improvement s = with_memory_accuracy s - baseline_accuracy s
    ∧ 0 <= baseline_accuracy s
    ∧ (baseline_accuracy s > 0 →
       relative_improvement s = absolute_improvement s / baseline_accuracy s)
    ∧ (baseline_accuracy s = 0 → relative_improvement s = 0).
Proof.
  exists (Spec.summary self). split_and!; try done.
  - apply save_results_Ok.
  - apply accuracy_range.
  - simpl. intros Hpos%gt_true. by rewrite Hpos.
  - simpl. intros Hzero.
    destruct (gt _ 0) eqn:Hgt; [|done]. apply gt_true in Hgt. lra.
Qed.

Lemma improvements_witness :
  ∃ s, save_results (experiment (arm 0 2) (arm 1 1)) = Ok s
    ∧ absolute_improvement s = 1 / 2
    ∧ relative_improvement s = 0.
Proof.
  destruct (improvements (experiment (arm 0 2) (arm 1 1)))
    as (s & Hs & Hb & Hm & Habs & _ & _ & Hrel).
  change (Spec.accuracy _) with (IZR 0 / IZR 2) in Hb.
  change (Spec.accuracy _) with (IZR 1 / IZR 2) in Hm.
  exists s. split; [exact Hs|]. split.
  - rewrite Habs, Hb, Hm. lra.
  - apply Hrel. rewrite Hb. lra.
Defined.

Lemma wilson_lower_mono (n s1 s2 : Z) :
  (0 <= s1)%Z → (s1 <= s2)%Z → (s2 <= n)%Z →
  (Spec.wilsonInterval s1 n 1.96).1 <= (Spec.wilsonInterval s2 n 1.96).1
  ∧ ((s1 < s2)%Z →
     (Spec.wilsonInterval s1 n 1.96).1 < (Spec.wilsonInterval s2 n 1.96).1).
Proof.
  intros H0 H12 H2.
  assert ((s1 < s2)%Z →
          (Spec.wilsonInterval s1 n 1.96).1 < (Spec.wilsonInterval s2 n 1.96).1)
    as Hstrict.
  { intros Hlt. rewrite !wilsonInterval_in_range by (lra || lia). simpl.
    apply lower_strict_mono; (lra || lia). }
  split; [|done].
  destruct (Z.eq_dec s1 s2) as [->|]; [lra|]. left. apply Hstrict. lia.
Qed.

(** C9, as amended. With the baseline arm and the size of the memory arm
    fixed, more successes in the memory arm give a Wilson lower bound that is
    at least as large, and strictly larger for strictly more successes, while
    the baseline upper bound stays the same: once true, the significance flag
    remains true for every larger success count up to [n]. Whether it is ever
    true depends on the baseline: with all [n > 0] memory outcomes successful
    the lower bound is [n / (n + 1.96²)], and the flag is true there only if
    the baseline upper bound lies below that value. *)
Theorem significance_monotone (e1 e2 : Phase1Experiment) :
  results_baseline e1 = results_baseline e2 →
  len (results_with_memory e1) = len (results_with_memory e2) →
  (count_successes (results_with_memory e1)
   <= count_successes (results_with_memory e2))%Z →
  ∃ s1 s2, save_results e1 = Ok s1 ∧ save_results e2 = Ok s2
    ∧ baseline_ci_upper s1 = baseline_ci_upper s2
    ∧ with_memory_ci_lower s1 <= with_memory_ci_lower s2
    ∧ ((count_successes (results_with_memory e1)
        < count_successes (results_with_memory e2))%Z →
       with_memory_ci_lower s1 < with_memory_ci_lower s2)
    ∧ (statistically_significant s1 = true →
       statistically_significant s2 = true)
    ∧ (count_successes (results_with_memory e2) = len (results_with_memory e2) →
       (0 < len (results_with_memory e2))%Z →
       with_memory_ci_lower s2
       = IZR (len (results_with_memory e2))
         / (IZR (len (results_with_memory e2)) + 1.96 ^ 2)).
Proof.
  intros Hbase Hlen Hcount.
  exists (Spec.summary e1), (Spec.summary e2).
  pose proof (count_successes_range (results_with_memory e1)) as Hr1.
  pose proof (count_successes_range (results_with_memory e2)) as Hr2.
  destruct (wilson_lower_mono (len (results_with_memory e2))
              (count_successes (results_with_memory e1))
              (count_successes (results_with_memory e2)))
    as [Hmono Hstrict]; [lia..|].
  split_and!; try apply save_results_Ok; simpl.
  - by rewrite Hbase.
  - by rewrite Hlen.
  - rewrite Hlen. apply Hstrict.
  - rewrite !gt_true, Hbase, Hlen. lra.
  - intros -> Hpos. rewrite wilsonInterval_in_range by (lra || lia). simpl.
    apply lower_all_successes; (lra || lia).
Qed.

Lemma significance_monotone_witness :
  ∃ s1 s2,
    save_results (experiment (arm 20 30) (arm 40 10)) = Ok s1
    ∧ save_results (experiment (arm 20 30) (arm 48 2)) = Ok s2
    ∧ with_memory_ci_lower s1 < with_memory_ci_lower s2
    ∧ (statistically_significant s1 = true →
       statistically_significant s2 = true).
Proof.
  destruct (significance_monotone (experiment (arm 20 30) (arm 40 10))
              (experiment (arm 20 30) (arm 48 2)))
    as (s1 & s2 & H1 & H2 & _ & _ & Hstrict & Hflag & _).
  - reflexivity.
  - reflexivity.
  - vm_compute. discriminate.
  - exists s1, s2. split_and!; [exact H1|exact H2| |exact Hflag].
    apply Hstrict. vm_compute. reflexivity.
Defined.

(** C9, as stated, fails in its "eventually becomes true" part: against a
    baseline arm of 50 successes out of 50, whose upper bound is [1], no
    memory arm whatsoever makes the flag true. *)
Lemma significance_not_always_reached :
  ¬ ∃ with_memory s,
      save_results (experiment (arm 50 0) with_memory) = Ok s
      ∧ statistically_significant s = true.
Proof.
  intros (with_memory & s & Hs & Hflag).
  rewrite save_results_Ok in Hs. injection Hs as <-.
  assert (gt (Spec.wilsonInterval (count_successes with_memory)
                (len with_memory) 1.96).1
             (Spec.wilsonInterval 50 50 1.96).2 = true) as Hgt by exact Hflag.
  clear Hflag. apply gt_true in Hgt.
  rewrite (wilsonInterval_in_range 1.96 50 50) in Hgt by (lra || lia).
  cbn [snd] in Hgt. rewrite upper_all_successes in Hgt by (lra || lia).
  rewrite Rmin_left in Hgt by lra.
  pose proof (wilsonInterval_bounds 1.96 (count_successes with_memory)
                (len with_memory) z95_pos (count_successes_range with_memory)).
  lra.
Qed.

(** ** The retriever *)

Lemma prefix_spec (needle hay : string) :
  String.prefix needle hay = true ↔ ∃ post, hay = needle +:+ post.
Proof.
  revert hay. induction needle as [|c needle IH]; intros hay.
  - split; [|by destruct hay]. intros _. by exists hay.
  - destruct hay as [|c' hay]; simpl.
    + split; [done|]. by intros [post [=]].
    + destruct (Ascii.ascii_dec c c') as [->|Hne].
      * rewrite IH. split.
        -- intros [post ->]. by exists post.
        -- intros [post [= ->]]. by exists post.
      * split; [done|]. intros [post [= ? _]]. done.
Qed.

Lemma contains_spec (needle hay : string) :
  contains needle hay = true ↔ ∃ pre post, hay = pre +:+ needle +:+ post.
Proof.
  induction hay as [|c hay IH].
  - cbn [contains]. rewrite orb_false_r, prefix_spec. split.
    + intros [post ->]. by exists EmptyString, post.
    + intros (pre & post & Heq). destruct pre; [by exists post|done].
  - cbn [contains]. rewrite orb_true_iff, prefix_spec, IH. split.
    + intros [[post ->]|(pre & post & ->)].
      * by exists EmptyString, post.
      * by exists (String c pre), post.
    + intros (pre & post & Heq). destruct pre as [|c' pre].
      * left. by exists post.
      * right. injection Heq as -> ->. by exists pre, post.
Qed.

Section RetrieverFacts.

Context {Score : Type}.
Variable score : string → MemoryItem → Score.
Variable score_ltb : Score → Score → bool.

Lemma leaks_false (expected_value : string) (m : MemoryItem) :
  leaks expected_value m = false ↔
  (¬ ∃ pre post, text_of (content m) = pre +:+ expected_value +:+ post)
  ∧ (¬ ∃ pre post, text_of (description m) = pre +:+ expected_value +:+ post).
Proof.
  unfold leaks. by rewrite orb_false_iff, <- !contains_spec, !not_true_iff_false.
Qed.

Lemma retrieve_positive (query : string) (pool : list MemoryItem)
    (top_k : Z) (expected_value : string) :
  (0 < top_k)%Z →
  retrieve score score_ltb query pool top_k expected_value =
    take (Z.to_nat top_k)
      (merge_sort (λ a b, ranks_before score_ltb a b)
         ((λ m, (m, score query m)) <$>
            filter (λ m, leaks expected_value m = false) pool)).
Proof.
  intros Hk. unfold retrieve. by destruct (Z.leb_spec top_k 0); [lia|].
Qed.

Lemma retrieve_nonpositive (query : string) (pool : list MemoryItem)
    (top_k : Z) (expected_value : string) :
  (top_k <= 0)%Z →
  retrieve score score_ltb query pool top_k expected_value = [].
Proof.
  intros Hk. unfold retrieve. by destruct (Z.leb_spec top_k 0); [|lia].
Qed.

(** C3. Leak guard. Whatever the pool, [top_k], the expected value and the
    relevance measure, every pair returned by [retrieve] is a pool item with
    its score, and neither its content nor its description contains the
    literal form of the expected value. The guard acts before scoring and
    truncation: retrieving from the pool is retrieving from its non-leaking
    items, and the result has [min top_k (number of non-leaking items)]
    entries, so a leaking item takes no place among the first [top_k]. *)
Theorem retrieve_leak_guard (query : string) (pool : list MemoryItem)
    (top_k : Z) (expected_value : string) :
  let safe := filter (λ m, leaks expected_value m = false) pool in
  let result := retrieve score score_ltb query pool top_k expected_value in
  Forall (λ r,
      r.1 ∈ pool ∧ r.2 = score query r.1
      ∧ (¬ ∃ pre post,
             text_of (content r.1) = pre +:+ expected_value +:+ post)
      ∧ (¬ ∃ pre post,
             text_of (description r.1) = pre +:+ expected_value +:+ post))
    result
  ∧ result = retrieve score score_ltb query safe top_k expected_value
  ∧ length result = Z.to_nat top_k `min` length safe.
Proof.
  intros safe result. subst safe result.
  destruct (Z.leb_spec top_k 0) as [Hk|Hk].
  - rewrite !retrieve_nonpositive by done.
    split_and!; [constructor|done|]. simpl. lia.
  - rewrite !retrieve_positive by done. split_and!.
    + apply Forall_take.
      rewrite merge_sort_Permutation, Forall_fmap.
      apply Forall_forall. intros m [Hsafe Hin]%list_elem_of_filter.
      apply leaks_false in Hsafe. simpl. tauto.
    + by rewrite list_filter_filter_l.
    + rewrite length_take, (Permutation_length (merge_sort_Permutation _ _)).
      by rewrite length_fmap.
Qed.

End RetrieverFacts.

(** Scenario 4 of the specification: the memory that contains "42" would rank
    first and is left out. *)
Example retrieve_scenario_4 :
  retrieve title_length Z.ltb "q" pool3 2 "42" =
    [ (item "medium one" "carry the tens digit", 10%Z);
      (item "short" "add the two numbers", 5%Z) ].
Proof. vm_compute. reflexivity. Qed.

(** * Further properties of the code *)

#[local] Set Warnings "-clear-no-such-hyp".
Local Close Scope R_scope.

(** ** [MemoryItem.from_dict] and [MemoryItem.to_dict] *)

(** Closes [Raise _ = Ok _ ↔ ...] when a conjunct on the right is absurd. *)
Ltac no_record :=
  split; [done | let H := fresh in intros H; decompose [and] H; done].

Lemma from_dict_Ok (d : gmap string pyval) (m : MemoryItem) :
  from_dict (PDict d) = Ok m ↔
  dom d ⊆ field_names
  ∧ d !! "title" = Some (title m)
  ∧ d !! "description" = Some (description m)
  ∧ d !! "content" = Some (content m)
  ∧ d !! "source_problem_id" = Some (source_problem_id m)
  ∧ d !! "success" = Some (success m)
  ∧ d !! "created_at" = Some (created_at m)
  ∧ embedding m = default PNone (d !! "embedding").
Proof.
  unfold from_dict, required. case_bool_decide as Hdom.
  - destruct (d !! "title") as [t|]; simpl; [|no_record].
    destruct (d !! "description") as [de|]; simpl; [|no_record].
    destruct (d !! "content") as [c|]; simpl; [|no_record].
    destruct (d !! "source_problem_id") as [sp|]; simpl; [|no_record].
    destruct (d !! "success") as [su|]; simpl; [|no_record].
    destruct (d !! "created_at") as [cr|]; simpl; [|no_record].
    split.
    + intros [= <-]. simpl. done.
    + intros (_ & [= ->] & [= ->] & [= ->] & [= ->] & [= ->] & [= ->] & He).
      destruct m; simpl in *. by rewrite He.
  - no_record.
Qed.

(** X1. [from_dict] accepts exactly the mappings whose keys are the six
    fields without default, with or without [embedding]: any other value
    (not a mapping, a field missing, a key that names no field) is rejected,
    and nothing is asked of the values stored under the keys. *)
Theorem from_dict_accepts (data : pyval) :
  (∃ m, from_dict data = Ok m) ↔
  ∃ d, data = PDict d
       ∧ (dom d = field_names ∖ {["embedding"]} ∨ dom d = field_names).
Proof.
  split.
  - intros [m Hm]. destruct data as [| | | | | |d]; try done.
    exists d. split; [done|].
    apply from_dict_Ok in Hm
      as (Hdom & Ht & Hde & Hc & Hsp & Hsu & Hcr & _).
    apply (elem_of_dom_2 d) in Ht, Hde, Hc, Hsp, Hsu, Hcr.
    destruct (decide ("embedding" ∈ dom d)).
    + right. unfold field_names in *. set_solver.
    + left. unfold field_names in *. set_solver.
  - intros (d & -> & Hdom).
    assert (∀ k, k ∈ field_names ∖ {["embedding"]} → is_Some (d !! k)) as Hreq.
    { intros k Hk. apply elem_of_dom. destruct Hdom as [-> | ->]; set_solver. }
    destruct (Hreq "title") as [t Ht]; [unfold field_names; set_solver|].
    destruct (Hreq "description") as [de Hde]; [unfold field_names; set_solver|].
    destruct (Hreq "content") as [c Hc]; [unfold field_names; set_solver|].
    destruct (Hreq "source_problem_id") as [sp Hsp];
      [unfold field_names; set_solver|].
    destruct (Hreq "success") as [su Hsu]; [unfold field_names; set_solver|].
    destruct (Hreq "created_at") as [cr Hcr]; [unfold field_names; set_solver|].
    eexists {| title := t; description := de; content := c;
               source_problem_id := sp; success := su; created_at := cr;
               embedding := default PNone (d !! "embedding") |}.
    apply from_dict_Ok. simpl. split_and!; try done.
    destruct Hdom as [-> | ->]; set_solver.
Qed.

(** X2. Decoding then encoding. When [from_dict] accepts a mapping, [to_dict]
    of the item it builds is that mapping with the [embedding] entry made
    explicit; it is the mapping itself when [embedding] was present. *)
Theorem to_dict_from_dict (d : gmap string pyval) (m : MemoryItem) :
  from_dict (PDict d) = Ok m →
  to_dict m = PDict (<["embedding" := embedding m]> d)
  ∧ ("embedding" ∈ dom d → to_dict m = PDict d).
Proof.
  intros (Hdom & Ht & Hde & Hc & Hsp & Hsu & Hcr & He)%from_dict_Ok.
  assert (to_dict m = PDict (<["embedding" := embedding m]> d)) as Heq.
  { unfold to_dict. f_equal. apply map_eq. intros k.
    destruct (decide (k ∈ field_names)) as [Hk|Hk].
    - unfold field_names in Hk.
      repeat (apply elem_of_union in Hk as [Hk|Hk]);
        apply elem_of_singleton in Hk as ->; by simplify_map_eq.
    - assert (d !! k = None) as Hnone.
      { apply not_elem_of_dom. set_solver. }
      unfold field_names in Hk.
      rewrite !lookup_insert_ne by set_solver.
      by rewrite lookup_empty, Hnone. }
  split; [done|].
  intros [v Hv]%elem_of_dom. rewrite Heq. f_equal. apply insert_id.
  by rewrite He, Hv.
Qed.

Lemma to_dict_from_dict_witness :
  to_dict (item "t" "c") =
    PDict (<["embedding" := PNone]>
            (<["title" := PStr "t"]>
            (<["description" := PStr "worked example"]>
            (<["content" := PStr "c"]>
            (<["source_problem_id" := PStr "gsm-1"]>
            (<["success" := PBool true]>
            (<["created_at" := PStr "2025-01-01T00:00:00"]> ∅))))))).
Proof.
  refine (proj1 (to_dict_from_dict _ (item "t" "c") _)).
  vm_compute. reflexivity.
Defined.

(** ** [ReasoningBank.load] *)

(** X4. A store whose decoded value is not a list. The loop of [load] runs
    over whatever the value yields: an empty object and an empty string yield
    nothing and load as the empty bank, without error; every other value that
    is not a list (null, a boolean, a number, a non-empty object or string)
    makes the load raise [TypeError]. *)
Theorem load_not_a_list (self : ReasoningBank) (fs : filesystem) (data : pyval) :
  files fs !! storage_path self = Some (Json data) →
  (∀ l, data ≠ PList l) →
  (data = PDict ∅ ∨ data = PStr "" → load self fs = Ok (set_memories self []))
  ∧ (data ≠ PDict ∅ → data ≠ PStr "" → load self fs = Raise TypeError).
Proof.
  intros Hfile Hlist. rewrite (load_json _ _ _ Hfile). split.
  - intros [-> | ->]; reflexivity.
  - intros Hdict Hstr. destruct data as [| | | |s|l|d]; try done.
    + destruct s as [|c s]; [done|]. reflexivity.
    + by destruct (Hlist l).
    + simpl. destruct (map_to_list d) as [|[k v] kvs] eqn:Hkvs.
      * apply map_to_list_empty_iff in Hkvs as ->. done.
      * reflexivity.
Qed.

Lemma load_not_a_list_witness :
  load fresh_bank (fs_with (Json (PDict ∅))) = Ok (set_memories fresh_bank [])
  ∧ load fresh_bank (fs_with (Json (PInt 7))) = Raise TypeError.
Proof.
  split.
  - refine (proj1 (load_not_a_list fresh_bank (fs_with (Json (PDict ∅)))
                     (PDict ∅) _ _) _); [reflexivity|done|by left].
  - refine (proj2 (load_not_a_list fresh_bank (fs_with (Json (PInt 7)))
                     (PInt 7) _ _) _ _); [reflexivity|done..].
Defined.

(** ** Sessions of mutating calls *)

Lemma perform_path (st : ReasoningBank * filesystem) (c : Session.call) :
  storage_path (Session.perform st c).1 = storage_path st.1.
Proof. by destruct c. Qed.

Lemma perform_memories (st : ReasoningBank * filesystem) (c : Session.call) :
  memories (Session.perform st c).1 = Session.effect (memories st.1) c.
Proof. by destruct c. Qed.

Lemma perform_persisted (st : ReasoningBank * filesystem) (c : Session.call) :
  persisted (Session.perform st c).1 (Session.perform st c).2.
Proof. destruct c; apply save_persisted. Qed.

Lemma perform_writes (st : ReasoningBank * filesystem) (c : Session.call) :
  length (writes (Session.perform st c).2) = S (length (writes st.2)).
Proof. destruct c; simpl; rewrite length_app; simpl; lia. Qed.

Lemma perform_all_snoc (calls : list Session.call) (c : Session.call)
    (st : ReasoningBank * filesystem) :
  Session.perform_all (calls ++ [c]) st =
    Session.perform (Session.perform_all calls st) c.
Proof. unfold Session.perform_all. by rewrite foldl_app. Qed.

Lemma perform_all_path (calls : list Session.call)
    (st : ReasoningBank * filesystem) :
  storage_path (Session.perform_all calls st).1 = storage_path st.1.
Proof.
  induction calls as [|c calls IH] using rev_ind; [done|].
  by rewrite perform_all_snoc, perform_path.
Qed.

(** X5. The store follows the bank through any session. After any sequence
    of [add_memory], [add_memories] and [clear] calls, the bank holds what
    the calls make of its initial sequence, the log has one more write per
    call, and, if at least one call was made, the store holds the
    serialization of the bank's sequence: constructing a new bank on the same
    path gives back the bank as it is in memory. *)
Theorem session_keeps_store_in_step (calls : list Session.call)
    (self : ReasoningBank) (fs : filesystem) :
  let st := Session.perform_all calls (self, fs) in
  storage_path st.1 = storage_path self
  ∧ memories st.1 = foldl Session.effect (memories self) calls
  ∧ length (writes st.2) = length (writes fs) + length calls
  ∧ (calls ≠ [] →
     persisted st.1 st.2 ∧ __init__ (storage_path self) st.2 = Ok st.1).
Proof.
  induction calls as [|c calls IH] using rev_ind; simpl.
  - split_and!; (done || lia).
  - rewrite perform_all_snoc. destruct IH as (Hpath & Hmem & Hwrites & _).
    rewrite perform_path, perform_memories, perform_writes, foldl_app,
      length_app, Hpath, Hmem, Hwrites. simpl.
    split_and!; try done; [lia|]. intros _.
    split; [apply perform_persisted|].
    apply load_persisted; [|apply perform_persisted].
    by rewrite perform_path.
Qed.

(** X6. Batches compose. Adding [a ++ b] in one call leaves the same bank and
    the same files as adding [a] and then [b], with one write instead of two;
    and [add_memory] is [add_memories] of a one-item batch. *)
Theorem batch_composition (a b : list MemoryItem) (self : ReasoningBank)
    (fs : filesystem) (memory : MemoryItem) :
  let one := add_memories (a ++ b) self fs in
  let first := add_memories a self fs in
  let two := add_memories b first.1 first.2 in
  one.1 = two.1
  ∧ files one.2 = files two.2
  ∧ length (writes two.2) = S (length (writes one.2))
  ∧ add_memory memory self fs = add_memories [memory] self fs.
Proof.
  simpl. unfold add_memories, add_memory, save, write_json, set_memories. simpl.
  rewrite <- !(assoc_L (++)). split_and!; try done.
  - by rewrite insert_insert_eq.
  - rewrite !length_app. simpl. lia.
Qed.

(** ** The shape of the Wilson interval *)

Local Open Scope R_scope.

Section WilsonSymmetry.

Variable z : R.
Variable n : Z.
Hypothesis z_pos : 0 < z.
Hypothesis n_pos : (0 < n)%Z.

Lemma center_mirror successes :
  Spec.center z (n - successes) n = 1 - Spec.center z successes n.
Proof.
  pose proof (IZR_n_pos n n_pos). unfold Spec.center. rewrite minus_IZR.
  field. split; nra.
Qed.

Lemma radicand_mirror successes :
  Spec.radicand z (n - successes) n = Spec.radicand z successes n.
Proof.
  pose proof (IZR_n_pos n n_pos). unfold Spec.radicand. rewrite minus_IZR.
  field. lra.
Qed.

Lemma margin_mirror successes :
  Spec.margin z (n - successes) n = Spec.margin z successes n.
Proof. unfold Spec.margin. by rewrite radicand_mirror. Qed.

Lemma upper_le_1 successes :
  (0 <= successes <= n)%Z →
  Spec.center z successes n + Spec.margin z successes n <= 1.
Proof.
  intros Hs.
  assert (0 <= Spec.center z (n - successes) n - Spec.margin z (n - successes) n)
    as Hlow by (apply lower_nonneg; (done || lia)).
  rewrite center_mirror, margin_mirror in Hlow. lra.
Qed.

Lemma upper_strict_mono s1 s2 :
  (0 <= s1)%Z → (s1 < s2)%Z → (s2 <= n)%Z →
  Spec.center z s1 n + Spec.margin z s1 n
  < Spec.center z s2 n + Spec.margin z s2 n.
Proof.
  intros H0 H12 H2.
  assert (Spec.center z (n - s2) n - Spec.margin z (n - s2) n
          < Spec.center z (n - s1) n - Spec.margin z (n - s1) n) as Hlow
    by (apply lower_strict_mono; (done || lia)).
  rewrite !center_mirror, !margin_mirror in Hlow. lra.
Qed.

End WilsonSymmetry.

(** ** [_compute_wilson_ci], beyond its bounds *)

Lemma wilson_denominator_nonzero (n : Z) :
  n ≠ 0%Z → 1 + 1.96 ^ 2 / IZR n ≠ 0.
Proof.
  intros Hn. destruct (Z_lt_le_dec 0 n) as [Hpos|Hneg].
  - pose proof (denominator_pos 1.96 n Hpos). unfold Rdiv. lra.
  - assert (IZR n < 0) as Hn' by (apply IZR_lt; lia).
    assert (0 < / - IZR n) as Hk by (apply Rinv_0_lt_compat; lra).
    assert (- IZR n * / - IZR n = 1) as Hinv by (apply Rinv_r; lra).
    assert (1.96 ^ 2 / IZR n = - (1.96 ^ 2 * / - IZR n)) as ->
      by (field; lra).
    destruct (Z_le_gt_dec n (-4)) as [Hfar|Hnear].
    + assert (IZR n <= -4) by (by apply IZR_le). nra.
    + assert (-3 <= IZR n) by (apply IZR_le; lia). nra.
Qed.

(** X12. The guard [n == 0] is the only one needed against a division by
    zero: for all integers [successes] and [n], negative ones included, the
    call does not raise [ZeroDivisionError]. *)
Theorem wilson_never_divides_by_zero (successes n : Z) (confidence : R) :
  _compute_wilson_ci successes n confidence ≠ Raise ZeroDivisionError.
Proof.
  unfold _compute_wilson_ci.
  destruct (Z.eqb_spec n 0) as [->|Hn]; [done|].
  assert (IZR n ≠ 0) as Hn' by (by apply not_0_IZR).
  assert (IZR (2 * n) ≠ 0) by (apply not_0_IZR; lia).
  assert (IZR (4 * n ^ 2) ≠ 0) by (apply not_0_IZR; nia).
  pose proof (wilson_denominator_nonzero n Hn).
  repeat first [rewrite truediv_Ok by done | rewrite result_bind_Ok].
  unfold math_sqrt. destruct (Rlt_dec _ 0); [done|].
  by repeat first [rewrite truediv_Ok by done | rewrite result_bind_Ok].
Qed.

(** ** The summary, beyond its flag *)

Lemma wilsonInterval_unclamped (successes n : Z) :
  (0 < n)%Z → (0 <= successes <= n)%Z →
  Spec.wilsonInterval successes n 1.96 =
    (Spec.center 1.96 successes n - Spec.margin 1.96 successes n,
     Spec.center 1.96 successes n + Spec.margin 1.96 successes n).
Proof.
  intros Hn Hs. rewrite wilsonInterval_in_range by (done || lra).
  rewrite Rmin_right; [done|]. apply upper_le_1; (done || lra).
Qed.

Lemma wilson_upper_mono (n s1 s2 : Z) :
  (0 <= s1)%Z → (s1 <= s2)%Z → (s2 <= n)%Z →
  (Spec.wilsonInterval s1 n 1.96).2 <= (Spec.wilsonInterval s2 n 1.96).2.
Proof.
  intros H0 H12 H2. destruct (Z.eq_dec s1 s2) as [->|Hne]; [lra|].
  rewrite !wilsonInterval_unclamped by lia. cbn [snd]. left.
  apply upper_strict_mono; (lra || lia).
Qed.

(** X13. With the memory arm and the size of the baseline arm fixed, more
    baseline successes raise the baseline upper bound and can only take the
    significance flag away: if it is true against the better baseline, it is
    true against the worse one. *)
Theorem significance_antitone_in_baseline (e1 e2 : Phase1Experiment) :
  results_with_memory e1 = results_with_memory e2 →
  len (results_baseline e1) = len (results_baseline e2) →
  (count_successes (results_baseline e1)
   <= count_successes (results_baseline e2))%Z →
  ∃ s1 s2, save_results e1 = Ok s1 ∧ save_results e2 = Ok s2
    ∧ baseline_ci_upper s1 <= baseline_ci_upper s2
    ∧ (statistically_significant s2 = true →
       statistically_significant s1 = true).
Proof.
  intros Hmem Hlen Hcount.
  exists (Spec.summary e1), (Spec.summary e2).
  pose proof (count_successes_range (results_baseline e1)).
  pose proof (count_successes_range (results_baseline e2)).
  assert ((Spec.wilsonInterval (count_successes (results_baseline e1))
             (len (results_baseline e1)) 1.96).2
          <= (Spec.wilsonInterval (count_successes (results_baseline e2))
                (len (results_baseline e2)) 1.96).2) as Hupper.
  { rewrite Hlen. apply wilson_upper_mono; lia. }
  split_and!; try apply save_results_Ok; cbn -[Spec.wilsonInterval].
  - done.
  - rewrite !gt_true, Hmem. lra.
Qed.

Lemma significance_antitone_in_baseline_witness :
  ∃ s1 s2,
    save_results (experiment (arm 20 30) (arm 48 2)) = Ok s1
    ∧ save_results (experiment (arm 30 20) (arm 48 2)) = Ok s2
    ∧ baseline_ci_upper s1 <= baseline_ci_upper s2
    ∧ (statistically_significant s2 = true →
       statistically_significant s1 = true).
Proof.
  apply (significance_antitone_in_baseline
           (experiment (arm 20 30) (arm 48 2))
           (experiment (arm 30 20) (arm 48 2))).
  - reflexivity.
  - reflexivity.
  - vm_compute. discriminate.
Defined.

Lemma summary_without_successes (self : Phase1Experiment) :
  count_successes (results_with_memory self) = 0%Z →
  with_memory_accuracy (Spec.summary self) = 0
  ∧ with_memory_ci_lower (Spec.summary self) = 0
  ∧ statistically_significant (Spec.summary self) = false
  ∧ confidence_intervals_overlap (Spec.summary self) = true
  ∧ absolute_improvement (Spec.summary self)
    = - baseline_accuracy (Spec.summary self).
Proof.
  intros Hzero. cbn -[Spec.wilsonInterval]. rewrite Hzero.
  assert (Spec.accuracy (results_with_memory self) = 0) as Hacc.
  { unfold Spec.accuracy. destruct (results_with_memory self); [done|].
    rewrite Hzero. unfold Rdiv. lra. }
  assert ((Spec.wilsonInterval 0 (len (results_with_memory self)) 1.96).1 = 0)
    as Hlow.
  { destruct (results_with_memory self) as [|r rs]; [done|].
    pose proof (len_cons_pos r rs).
    rewrite wilsonInterval_unclamped by lia. cbn [fst].
    apply lower_no_successes; (done || lra). }
  pose proof (wilsonInterval_bounds 1.96
                (count_successes (results_baseline self))
                (len (results_baseline self)) z95_pos
                (count_successes_range _)) as (Hb0 & Hb1 & _).
  assert (gt (Spec.wilsonInterval 0 (len (results_with_memory self)) 1.96).1
             (Spec.wilsonInterval (count_successes (results_baseline self))
                (len (results_baseline self)) 1.96).2 = false) as Hflag.
  { destruct (gt _ _) eqn:Hg; [|done]. apply gt_true in Hg. lra. }
  rewrite Hacc, Hlow, Hflag in *. split_and!; (done || lra).
Qed.

(** X16. Ranges of the summary. It is produced for every experiment; both
    accuracies lie in [0, 1], the absolute improvement lies in [-1, 1] and
    the relative improvement is at least [-1]. *)
Theorem summary_ranges (self : Phase1Experiment) :
  ∃ s, save_results self = Ok s
    ∧ 0 <= baseline_accuracy s <= 1
    ∧ 0 <= with_memory_accuracy s <= 1
    ∧ -1 <= absolute_improvement s <= 1
    ∧ -1 <= relative_improvement s.
Proof.
  exists (Spec.summary self). split; [apply save_results_Ok|].
  cbn -[Spec.wilsonInterval].
  pose proof (accuracy_range (results_baseline self)) as Hb.
  pose proof (accuracy_range (results_with_memory self)) as Hm.
  split_and!; try lra.
  destruct (gt _ 0) eqn:Hg; [|lra]. apply gt_true in Hg.
  apply (Rmult_le_reg_r (Spec.accuracy (results_baseline self))); [lra|].
  unfold Rdiv. rewrite Rmult_assoc, Rinv_l by lra. lra.
Qed.

(** ** The two runs *)

Local Close Scope R_scope.

Lemma slice_to_prefix {A} (limit : Z) (xs : list A) :
  Runs.slice_to limit xs `prefix_of` xs.
Proof. unfold Runs.slice_to. case_match; apply prefix_take. Qed.

Lemma slice_to_length {A} (limit : Z) (xs : list A) :
  length (Runs.slice_to limit xs) =
    if (0 <=? limit)%Z then Z.to_nat limit `min` length xs
    else length xs - Z.to_nat (- limit).
Proof.
  unfold Runs.slice_to. case_match; rewrite length_take; lia.
Qed.

Section RunFacts.

Context {Env Solution Evaluation Retrieved : Type}.
Variable solve_math_problem : string → option string → Env → Solution * Env.
Variable answer : Solution → pyval.
Variable evaluate_with_reasoning :
  string → pyval → pyval → Env → Evaluation * Env.
Variable evaluation_success_of : Evaluation → bool.
Variable retrieve :
  string → list MemoryItem → Z → pyval → Env → Retrieved * Env.
Variable format_memories_for_prompt : Retrieved → Env → string * Env.

Local Abbreviation baseline_step :=
  (Runs.baseline_step solve_math_problem answer evaluate_with_reasoning
     evaluation_success_of).
Local Abbreviation with_memory_step :=
  (Runs.with_memory_step solve_math_problem answer evaluate_with_reasoning
     evaluation_success_of retrieve format_memories_for_prompt).
Local Abbreviation run_baseline_without_memory :=
  (Runs.run_baseline_without_memory solve_math_problem answer
     evaluate_with_reasoning evaluation_success_of).
Local Abbreviation run_with_memory :=
  (Runs.run_with_memory solve_math_problem answer evaluate_with_reasoning
     evaluation_success_of retrieve format_memories_for_prompt).

Lemma baseline_step_spec (st : Phase1Experiment * Env) (p : Runs.Problem) :
  ∃ r, (baseline_step st p).1 = Runs.append_baseline r st.1
       ∧ problem_id r = Runs.id p ∧ question r = Runs.question p.
Proof.
  unfold Runs.baseline_step.
  destruct (solve_math_problem _ _ _) as [solution env1].
  destruct (evaluate_with_reasoning _ _ _ _) as [evaluation env2].
  by eexists.
Qed.

Lemma with_memory_step_spec (st : Phase1Experiment * Env) (p : Runs.Problem) :
  ∃ r, (with_memory_step st p).1 = Runs.append_with_memory r st.1
       ∧ problem_id r = Runs.id p ∧ question r = Runs.question p.
Proof.
  unfold Runs.with_memory_step.
  destruct (retrieve _ _ _ _ _) as [retrieved env0].
  destruct (format_memories_for_prompt _ _) as [context env0'].
  destruct (solve_math_problem _ _ _) as [solution env1].
  destruct (evaluate_with_reasoning _ _ _ _) as [evaluation env2].
  by eexists.
Qed.

Lemma baseline_loop (problems : list Runs.Problem)
    (st : Phase1Experiment * Env) :
  let st' := foldl baseline_step st problems in
  memory_bank st'.1 = memory_bank st.1
  ∧ random_seed st'.1 = random_seed st.1
  ∧ results_with_memory st'.1 = results_with_memory st.1
  ∧ Runs.appended problems (results_baseline st.1) (results_baseline st'.1).
Proof.
  induction problems as [|p problems IH] using rev_ind; simpl.
  - split_and!; try done. exists []. by rewrite app_nil_r.
  - rewrite foldl_app. simpl.
    destruct IH as (Hbank & Hseed & Hmem & new & Hnew & Hall).
    destruct (baseline_step_spec (foldl baseline_step st problems) p)
      as (r & -> & Hid & Hq).
    simpl. split_and!; try done. exists (new ++ [r]).
    rewrite Hnew, (assoc_L (++)). split; [done|].
    apply Forall2_app; [done|]. by constructor.
Qed.

Lemma with_memory_loop (problems : list Runs.Problem)
    (st : Phase1Experiment * Env) :
  let st' := foldl with_memory_step st problems in
  memory_bank st'.1 = memory_bank st.1
  ∧ random_seed st'.1 = random_seed st.1
  ∧ results_baseline st'.1 = results_baseline st.1
  ∧ Runs.appended problems (results_with_memory st.1) (results_with_memory st'.1).
Proof.
  induction problems as [|p problems IH] using rev_ind; simpl.
  - split_and!; try done. exists []. by rewrite app_nil_r.
  - rewrite foldl_app. simpl.
    destruct IH as (Hbank & Hseed & Hbase & new & Hnew & Hall).
    destruct (with_memory_step_spec (foldl with_memory_step st problems) p)
      as (r & -> & Hid & Hq).
    simpl. split_and!; try done. exists (new ++ [r]).
    rewrite Hnew, (assoc_L (++)). split; [done|].
    apply Forall2_app; [done|]. by constructor.
Qed.

Lemma printed_accuracy (rs : list RunResult) :
  (rs = [] →
   (truediv (IZR (count_successes rs)) (IZR (len rs)) ≫= λ _, mret tt)
   = Raise ZeroDivisionError)
  ∧ (rs ≠ [] →
     (truediv (IZR (count_successes rs)) (IZR (len rs)) ≫= λ _, mret tt)
     = Ok tt).
Proof.
  split.
  - intros ->. change (len []) with 0%Z. unfold truediv.
    destruct (Req_dec_T 0 0) as [|Hne]; [done|]. by destruct Hne.
  - intros Hne. destruct rs as [|r rs]; [done|].
    rewrite truediv_Ok; [done|].
    pose proof (len_cons_pos r rs) as Hlen. apply IZR_lt in Hlen.
    apply Rgt_not_eq, Hlen.
Qed.

(** X17. [run_baseline_without_memory], whatever the collaborators answer:
    the bank and the with-memory results are left as they were, one result
    per problem of [problems[:limit]] is appended to the baseline results, in
    order, and the accuracy computed at the end raises [ZeroDivisionError]
    exactly when the baseline results are still empty (no result before the
    call and no problem in the slice). *)
Theorem run_baseline_outcome (problems : list Runs.Problem) (limit : Z)
    (self : Phase1Experiment) (env : Env) :
  let run := run_baseline_without_memory problems limit self env in
  memory_bank run.1.2 = memory_bank self
  ∧ results_with_memory run.1.2 = results_with_memory self
  ∧ Runs.appended (Runs.slice_to limit problems)
      (results_baseline self) (results_baseline run.1.2)
  ∧ (results_baseline run.1.2 = [] → run.1.1 = Raise ZeroDivisionError)
  ∧ (results_baseline run.1.2 ≠ [] → run.1.1 = Ok tt).
Proof.
  unfold Runs.run_baseline_without_memory.
  pose proof (baseline_loop (Runs.slice_to limit problems) (self, env))
    as (Hbank & _ & Hmem & Happ).
  destruct (foldl _ _ _) as [self' env']. simpl in *.
  split_and!; try done; apply printed_accuracy.
Qed.

(** X18. [run_with_memory], whatever the collaborators answer: the bank and
    the baseline results are left as they were. On an empty bank the call
    returns at once: nothing is recorded and no collaborator is called. On a
    non-empty bank one result per problem of [problems[:limit]] is appended
    to the with-memory results, and the accuracy computed at the end raises
    [ZeroDivisionError] exactly when these results are still empty. *)
Theorem run_with_memory_outcome (problems : list Runs.Problem) (limit : Z)
    (self : Phase1Experiment) (env : Env) :
  let run := run_with_memory problems limit self env in
  memory_bank run.1.2 = memory_bank self
  ∧ results_baseline run.1.2 = results_baseline self
  ∧ (memories (memory_bank self) = [] → run = (Ok tt, self, env))
  ∧ (memories (memory_bank self) ≠ [] →
     Runs.appended (Runs.slice_to limit problems)
       (results_with_memory self) (results_with_memory run.1.2)
     ∧ (results_with_memory run.1.2 = [] → run.1.1 = Raise ZeroDivisionError)
     ∧ (results_with_memory run.1.2 ≠ [] → run.1.1 = Ok tt)).
Proof.
  unfold Runs.run_with_memory, __len__.
  destruct (memories (memory_bank self)) as [|m ms] eqn:Hbank_empty; simpl.
  - split_and!; done.
  - pose proof (with_memory_loop (Runs.slice_to limit problems) (self, env))
      as (Hbank & _ & Hbase & Happ).
    destruct (foldl _ _ _) as [self' env']. simpl in *.
    split_and!; try done. intros _.
    split_and!; try done; apply printed_accuracy.
Qed.

Lemma run_with_memory_empty_bank (problems : list Runs.Problem) (limit : Z)
    (self : Phase1Experiment) (env : Env) :
  memories (memory_bank self) = [] →
  run_with_memory problems limit self env = (Ok tt, self, env).
Proof. unfold Runs.run_with_memory, __len__. by intros ->. Qed.

(** X19. An experiment without a trained bank. When no bank file exists, the
    experiment is constructed with an empty bank; after a baseline run over
    any problems, [run_with_memory] records nothing, and the summary that
    [save_results] then builds counts the baseline problems, reports a memory
    accuracy of [0] and is never significant. *)
Theorem untrained_run_is_never_significant (seed : Z) (fs : filesystem)
    (problems problems' : list Runs.Problem) (limit limit' : Z) (env : Env) :
  files fs !! default_storage_path = None →
  ∃ self, Runs.__init__ seed fs = Ok self
    ∧ let b := run_baseline_without_memory problems limit self env in
      let m := run_with_memory problems' limit' b.1.2 b.2 in
      m = (Ok tt, b.1.2, b.2)
      ∧ ∃ s, save_results m.1.2 = Ok s
          ∧ problems_tested s = length (Runs.slice_to limit problems)
          ∧ with_memory_accuracy s = 0%R
          ∧ statistically_significant s = false.
Proof.
  intros Hfile. unfold Runs.__init__, __init__.
  rewrite load_missing by done. eexists. split; [reflexivity|].
  unfold Runs.run_baseline_without_memory.
  match goal with
  | |- context [foldl ?f ?st ?ps] =>
      pose proof (baseline_loop ps st) as (Hbank & _ & Hmem & new & Hnew & Hall);
      destruct (foldl f st ps) as [self' env']
  end.
  simpl in *.
  rewrite run_with_memory_empty_bank by (by rewrite Hbank).
  split; [done|]. exists (Spec.summary self'). simpl.
  split; [apply save_results_Ok|].
  destruct (summary_without_successes self') as (Hacc & _ & Hflag & _).
  { by rewrite Hmem. }
  split_and!; [|done..].
  rewrite Hnew. symmetry. by eapply Forall2_length.
Qed.

End RunFacts.

Lemma untrained_run_is_never_significant_witness :
  ∃ self, Runs.__init__ Runs.default_random_seed empty_fs = Ok self
    ∧ let b := Runs.run_baseline_without_memory RunSamples.solve
                 RunSamples.answer RunSamples.judge RunSamples.verdict
                 RunSamples.problems Runs.default_limit self 0 in
      let m := Runs.run_with_memory RunSamples.solve RunSamples.answer
                 RunSamples.judge RunSamples.verdict RunSamples.retrieve
                 RunSamples.format RunSamples.problems Runs.default_limit
                 b.1.2 b.2 in
      m = (Ok tt, b.1.2, b.2)
      ∧ ∃ s, save_results m.1.2 = Ok s
          ∧ problems_tested s
            = length (Runs.slice_to Runs.default_limit RunSamples.problems)
          ∧ with_memory_accuracy s = 0%R
          ∧ statistically_significant s = false.
Proof.
  apply (untrained_run_is_never_significant RunSamples.solve RunSamples.answer
           RunSamples.judge RunSamples.verdict RunSamples.retrieve
           RunSamples.format).
  reflexivity.
Defined.

(** The baseline run on the two sample problems: both are recorded, the
    first one as a success. *)
Example run_baseline_sample :
  results_baseline
    (Runs.run_baseline_without_memory RunSamples.solve RunSamples.answer
       RunSamples.judge RunSamples.verdict RunSamples.problems
       Runs.default_limit (experiment [] []) 0).1.2
  = [ {| problem_id := "p1"; question := "2 + 2"; evaluation_success := true |};
      {| problem_id := "p2"; question := "2 + 3"; evaluation_success := false |} ].
Proof. reflexivity. Qed.

(** ** [_compute_wilson_ci] in binary64 *)






(** The binary64 function on ordinary inputs: 45 successes out of 50, and
    the literal [1.96]. *)
Example wilson_binary64_45_of_50 :
  F64._compute_wilson_ci 45 50 F64.default_confidence
  = Ok (F64.nearest 0x192a260cbb610f (-53), F64.nearest 0x1e9bda0e888875 (-53)).
Proof. vm_compute. reflexivity. Qed.

Example z95_bits : F64.z95 = F64.nearest 0x1f5c28f5c28f5c (-52).
Proof. vm_compute. reflexivity. Qed.
